(** * ModernEmbedded: EventBus, Scheduler and Controller of src/main.cpp

    A shallow embedding of the three classes of namespace ModernEmbedded
    that carry behaviour (EventBus, Scheduler, Controller) and of the part
    of the C++ runtime they talk to (steady_clock, sleep_for, calls of
    std::function objects and of virtual methods), followed by the
    properties of the embedding.

    Conventions.
    - A time_point of steady_clock is an integer count of nanoseconds
      (the representation of steady_clock::duration on the mainstream
      standard libraries), held in Z.  An int of milliseconds is below
      2^31, so [now + milliseconds(intervalMs)] stays far inside the signed
      64-bit range for any realistic clock reading and no wrap-around is
      written.
    - Code that lives behind std::function or behind a virtual method is
      opaque to the three classes.  It is a [Body]: a function of the clock
      reading and of the state of the surrounding program, answering with
      the time it took, whether it threw, and the new surrounding state.
      A body does not call back into the object that is calling it.
    - The world keeps a history of what the classes did to their
      surroundings (calls made, sleeps requested).  Bodies cannot write it.
    - The mutex of EventBus is taken and released inside each method
      (lock_guard), so in the sequential semantics given here it is free
      at every method entry and is not part of the state. *)

From Stdlib Require Import ZArith NArith Lia.
From stdpp Require Import gmap strings list pretty.

Local Open Scope Z_scope.

(** ** The runtime seen by the classes *)

(** struct Event { std::string type; std::string payload; } *)
Record Event := mkEvent { type : string; payload : string }.

#[global] Instance Event_eq_dec : EqDecision Event.
Proof. solve_decision. Defined.

(** Who is called: the init or update method of the component with a given
    identity (its address), or a plain std::function<void()> object. *)
Inductive Name :=
| Init (c : nat)
| Update (c : nat)
| Fn (f : nat).

#[global] Instance Name_eq_dec : EqDecision Name.
Proof. solve_decision. Defined.

(** One entry of the history. *)
Inductive Obs :=
| Called (n : Name)
| Handled (h : nat) (e : Event)
| Slept (d : Z).

#[global] Instance Obs_eq_dec : EqDecision Obs.
Proof. solve_decision. Defined.

Definition is_sleep (o : Obs) : bool :=
  match o with Slept _ => true | _ => false end.

(** std::chrono::milliseconds(n) converted to the clock's unit. *)
Definition milliseconds (n : Z) : Z := n * 1000000.

Module Runtime.
Section Runtime.
Context {U : Type}.

(** [clock]: what steady_clock::now() returns.
    [jitter]: by how many nanoseconds each coming sleep_for oversleeps
    (sleep_for blocks for at least the requested time); when the list is
    used up the sleeps are exact.
    [history]: the calls and sleeps so far, oldest first.
    [user]: the state of everything outside the three classes. *)
Record World := mkWorld {
  clock : Z;
  jitter : list N;
  history : list Obs;
  user : U
}.

(** What a call of opaque code answers. *)
Record Reply := mkReply { took : N; raised : bool; after : U }.

Definition Body := Z -> U -> Reply.

(** How a method ends: it returns, or an exception leaves it.  The state
    of the object is there in both cases. *)
Inductive Outcome (S : Type) :=
| Done (s : S) (w : World)
| Threw (s : S) (w : World).
Arguments Done {S} s w.
Arguments Threw {S} s w.

Definition state_of {S} (o : Outcome S) : S :=
  match o with Done s _ | Threw s _ => s end.

Definition world_of {S} (o : Outcome S) : World :=
  match o with Done _ w | Threw _ w => w end.

Definition returned {S} (o : Outcome S) : bool :=
  match o with Done _ _ => true | Threw _ _ => false end.

(** Replace the object state, keep how the call ended. *)
Definition with_state {S T} (f : S -> T) (o : Outcome S) : Outcome T :=
  match o with
  | Done s w => Done (f s) w
  | Threw s w => Threw (f s) w
  end.

(** steady_clock::now() *)
Definition now (w : World) : Z := clock w.

(** The world after a call of [b] recorded as [o]. *)
Definition enter (o : Obs) (b : Body) (w : World) : World :=
  let r := b (clock w) (user w) in
  {| clock := clock w + Z.of_N (took r);
     jitter := jitter w;
     history := history w ++ [o];
     user := after r |}.

(** Calling opaque code. *)
Definition invoke (o : Obs) (b : Body) (w : World) : Outcome unit :=
  if raised (b (clock w) (user w))
  then Threw tt (enter o b w)
  else Done tt (enter o b w).

(** std::this_thread::sleep_for(d) *)
Definition sleep_for (d : Z) (w : World) : World :=
  {| clock := clock w + d + Z.of_N (hd 0%N (jitter w));
     jitter := tl (jitter w);
     history := history w ++ [Slept d];
     user := user w |}.

(** Time passing in the caller between two calls. *)
Definition pause (d : N) (w : World) : World :=
  {| clock := clock w + Z.of_N d;
     jitter := jitter w;
     history := history w;
     user := user w |}.

(** A body that never throws, whatever the state it is called in. *)
Definition calm (b : Body) : Prop := forall t u, raised (b t u) = false.

(** A calm body that takes no measurable time. *)
Definition instant (b : Body) : Prop :=
  forall t u, raised (b t u) = false /\ took (b t u) = 0%N.

End Runtime.
Arguments World : clear implicits.
Arguments Reply : clear implicits.
Arguments Body : clear implicits.
Arguments Outcome : clear implicits.
Arguments Done {U S} s w.
Arguments Threw {U S} s w.
End Runtime.
Import Runtime.

(** ** class Scheduler *)

Module Scheduler.
Section Scheduler.
Context {U : Type}.

(** std::function<void()> *)
Record Callable := mkCallable { name : Name; code : Body U }.

(** struct Task { func; intervalMs; nextRun; } *)
Record Task := mkTask {
  func : Callable;
  intervalMs : Z;
  nextRun : Z
}.

(** The only field: std::vector<Task> tasks. *)
Record t := mk { tasks : list Task }.

Definition empty : t := {| tasks := [] |}.

(** tasks.push_back({f, intervalMs, steady_clock::now()}) *)
Definition addTask (f : Callable) (intervalMs : Z) (s : t) (w : World U)
  : t * World U :=
  ({| tasks := tasks s ++ [ {| func := f; intervalMs := intervalMs;
                               nextRun := now w |} ] |}, w).

(** t.func() *)
Definition call (f : Callable) (w : World U) : Outcome U unit :=
  invoke (Called (name f)) (code f) w.

(** t.nextRun = now + std::chrono::milliseconds(t.intervalMs) *)
Definition rearm (now : Z) (t : Task) : Task :=
  {| func := func t; intervalMs := intervalMs t;
     nextRun := now + milliseconds (intervalMs t) |}.

(** for(auto& t : tasks) { if(now >= t.nextRun) { ... } }
    An exception leaves the loop at once: the task that threw and the
    tasks after it keep their nextRun. *)
Fixpoint for_tasks (now : Z) (ts : list Task) (w : World U)
  : Outcome U (list Task) :=
  match ts with
  | [] => Done [] w
  | t :: rest =>
      if nextRun t <=? now then
        match call (func t) w with
        | Done _ w1 => with_state (cons (rearm now t)) (for_tasks now rest w1)
        | Threw _ w1 => Threw (t :: rest) w1
        end
      else with_state (cons t) (for_tasks now rest w)
  end.

(** One iteration of the outer loop of run. *)
Definition tick (s : t) (w : World U) : Outcome U t :=
  let now := now w in
  match for_tasks now (tasks s) w with
  | Done ts w1 => Done (mk ts) (sleep_for (milliseconds 50) w1)
  | Threw ts w1 => Threw (mk ts) w1
  end.

(** for(int i=0;i<cycles;i++) { ... }, by the number of iterations left. *)
Fixpoint for_cycles (left : nat) (s : t) (w : World U) : Outcome U t :=
  match left with
  | O => Done s w
  | S k =>
      match tick s w with
      | Done s1 w1 => for_cycles k s1 w1
      | Threw s1 w1 => Threw s1 w1
      end
  end.

(** void run(int cycles = 10): i runs from 0 while i < cycles, so a
    cycles of zero or below gives no iteration. *)
Definition run (cycles : Z) (s : t) (w : World U) : Outcome U t :=
  for_cycles (Z.to_nat cycles) s w.

Definition run_default := run 10.

End Scheduler.
Arguments Callable : clear implicits.
Arguments Task : clear implicits.
Arguments t : clear implicits.
End Scheduler.

(** ** class EventBus *)

Module EventBus.
Section EventBus.
Context {U : Type}.

(** std::function<void(const Event&)>; [hid] tells the function objects
    apart in the history. *)
Record Handler := mkHandler { hid : nat; hcode : Event -> Body U }.

(** The field std::map<std::string, std::vector<...>> handlers. *)
Record t := mk { handlers : gmap string (list Handler) }.

Definition empty : t := {| handlers := ∅ |}.

(** std::map::count: 1 when the key is there, else 0. *)
Definition count (m : gmap string (list Handler)) (k : string) : nat :=
  match m !! k with Some _ => 1 | None => 0 end.

(** std::map::operator[]: the value under the key, after inserting an
    empty vector when the key is missing. *)
Definition subscript (m : gmap string (list Handler)) (k : string)
  : list Handler * gmap string (list Handler) :=
  match m !! k with
  | Some v => (v, m)
  | None => ([], <[k := []]> m)
  end.

(** handlers[type].push_back(handler) *)
Definition registerHandler (ty : string) (h : Handler) (b : t) : t :=
  let '(v, m) := subscript (handlers b) ty in
  {| handlers := <[ty := v ++ [h]]> m |}.

(** for(auto& h : handlers[evt.type]) h(evt); *)
Fixpoint for_handlers (hs : list Handler) (evt : Event) (w : World U)
  : Outcome U unit :=
  match hs with
  | [] => Done tt w
  | h :: rest =>
      match invoke (Handled (hid h) evt) (hcode h evt) w with
      | Done _ w1 => for_handlers rest evt w1
      | Threw _ w1 => Threw tt w1
      end
  end.

(** void emit(const Event& evt) *)
Definition emit (evt : Event) (b : t) (w : World U) : Outcome U t :=
  match count (handlers b) (type evt) with
  | O => Done b w
  | S _ =>
      let '(v, m) := subscript (handlers b) (type evt) in
      with_state (fun _ => {| handlers := m |}) (for_handlers v evt w)
  end.

(** The handlers an event of type [k] is delivered to. *)
Definition subscribers (b : t) (k : string) : list Handler :=
  default [] (handlers b !! k).

End EventBus.
Arguments Handler : clear implicits.
Arguments t : clear implicits.
End EventBus.

(** ** class Component and class Controller *)

Module Controller.
Section Controller.
Context {U : Type}.

(** A std::shared_ptr<Component>: the identity of the object pointed to
    and the code of its two virtual methods. *)
Record Component := mkComponent {
  cid : nat;
  init : Body U;
  update : Body U
}.

Record t := mk {
  components : list Component;
  scheduler : Scheduler.t U
}.

Definition empty : t := {| components := []; scheduler := Scheduler.empty |}.

(** The closure [c](){ c->update(); }: calling it is calling update on
    the captured component. *)
Definition updater (c : Component) : Scheduler.Callable U :=
  {| Scheduler.name := Update (cid c); Scheduler.code := update c |}.

(** void addComponent(std::shared_ptr<Component> c, int intervalMs) *)
Definition addComponent (c : Component) (intervalMs : Z) (k : t)
  (w : World U) : Outcome U t :=
  match invoke (Called (Init (cid c))) (init c) w with
  | Threw _ w1 => Threw k w1
  | Done _ w1 =>
      let comps := components k ++ [c] in
      let '(s, w2) := Scheduler.addTask (updater c) intervalMs (scheduler k) w1 in
      Done {| components := comps; scheduler := s |} w2
  end.

Definition addComponent_default (c : Component) := addComponent c 1000.

(** void run(int cycles=10) { scheduler.run(cycles); } *)
Definition run (cycles : Z) (k : t) (w : World U) : Outcome U t :=
  with_state (fun s => {| components := components k; scheduler := s |})
    (Scheduler.run cycles (scheduler k) w).

Definition run_default := run 10.

(** What a client does with a Controller, one call after the other; a
    client that catches an exception goes on with the next call. *)
Inductive Op :=
| Add (c : Component) (intervalMs : Z)
| Run (cycles : Z)
| Pause (d : N).

Definition step (kw : t * World U) (op : Op) : t * World U :=
  match op with
  | Add c ms =>
      let o := addComponent c ms (fst kw) (snd kw) in (state_of o, world_of o)
  | Run n =>
      let o := run n (fst kw) (snd kw) in (state_of o, world_of o)
  | Pause d => (fst kw, pause d (snd kw))
  end.

Definition exec (ops : list Op) (kw : t * World U) : t * World U :=
  fold_left step ops kw.

(** How often a script hands the component with identity [c] to
    addComponent. *)
Definition adds (c : nat) (ops : list Op) : nat :=
  length (List.filter (fun op => match op with
                            | Add x _ => Nat.eqb (cid x) c
                            | _ => false
                            end) ops).

(** The lines of main that build and run the system:
    addComponent(A, 500); addComponent(B, 700); run(10). *)
Definition main_system (a b : Component) (w : World U) : t * World U :=
  exec [Add a 500; Add b 700; Run 10] (empty, w).

End Controller.
Arguments Component : clear implicits.
Arguments t : clear implicits.
Arguments Op : clear implicits.
End Controller.

(** ** The tick of the scheduler in the words of its description

    A second reading of one iteration of run, written from the sentence
    "capture now; for every task record where now >= next-due, invoke
    action() in registration order and set next-due = now + period; then
    sleep", to be compared with [Scheduler.tick]. *)

Module SchedulerSpec.
Section SchedulerSpec.
Context {U : Type}.

Definition due (now : Z) (t : Scheduler.Task U) : bool :=
  Scheduler.nextRun t <=? now.

Definition rebase (now : Z) (t : Scheduler.Task U) : Scheduler.Task U :=
  if due now t
  then Scheduler.mkTask (Scheduler.func t) (Scheduler.intervalMs t)
         (now + milliseconds (Scheduler.intervalMs t))
  else t.

(** The actions of the due tasks, in registration order. *)
Definition fired (now : Z) (ts : list (Scheduler.Task U))
  : list (Scheduler.Callable U) :=
  map Scheduler.func (List.filter (due now) ts).

(** The world after calling each of [fs] once, one after the other. *)
Definition play (fs : list (Scheduler.Callable U)) (w : World U) : World U :=
  fold_left (fun w f => enter (Called (Scheduler.name f)) (Scheduler.code f) w)
    fs w.

Definition tick_spec (s : Scheduler.t U) (w : World U)
  : Scheduler.t U * World U :=
  (Scheduler.mk (map (rebase (now w)) (Scheduler.tasks s)),
   sleep_for (milliseconds 50) (play (fired (now w) (Scheduler.tasks s)) w)).

(** No action of the scheduler ever throws. *)
Definition all_calm (ts : list (Scheduler.Task U)) : Prop :=
  Forall (fun t => calm (Scheduler.code (Scheduler.func t))) ts.

(** Who the tasks call, in registration order. *)
Definition names (ts : list (Scheduler.Task U)) : list Name :=
  map (fun t => Scheduler.name (Scheduler.func t)) ts.

(** What a run over tasks calling [ns] can write: sleeps and calls of
    those names. *)
Definition run_writes (ns : list Name) (l : list Obs) : Prop :=
  Forall (fun o => is_sleep o = true \/ exists n, In n ns /\ o = Called n) l.

(** A stretch of history made only of calls of actions of [ts]. *)
Definition calls_of (ts : list (Scheduler.Task U)) (l : list Obs) : Prop :=
  Forall (fun o => exists t, In t ts
                    /\ o = Called (Scheduler.name (Scheduler.func t))) l.

(** What a client may do with a Scheduler between two runs: register
    more tasks, let time pass. *)
Inductive Prep :=
| More (f : Scheduler.Callable U) (intervalMs : Z)
| Wait (d : N).

Definition prep_step (sw : Scheduler.t U * World U) (p : Prep)
  : Scheduler.t U * World U :=
  match p with
  | More f ms => Scheduler.addTask f ms (fst sw) (snd sw)
  | Wait d => (fst sw, pause d (snd sw))
  end.

Definition prepare (ps : list Prep) (sw : Scheduler.t U * World U)
  : Scheduler.t U * World U :=
  fold_left prep_step ps sw.

End SchedulerSpec.
Arguments Prep : clear implicits.
End SchedulerSpec.

(** ** Reading a history *)

(** The number of completed ticks a stretch of history shows: every
    iteration of run ends with one sleep_for and nothing else sleeps. *)
Definition ticks (l : list Obs) : nat := length (List.filter is_sleep l).

(** How often [o] occurs. *)
Definition times (o : Obs) (l : list Obs) : nat := count_occ Obs_eq_dec l o.

(** Every call of update on a component comes after a call of init on it. *)
Definition inits_first (l : list Obs) : Prop :=
  forall c l1 l2, l = l1 ++ Called (Update c) :: l2 -> In (Called (Init c)) l1.

(** What holds of a Controller and of the history written since it was
    made: updates come after inits, and every scheduled action is the
    update of a component whose init is in the history. *)
Definition settled {U} (k : Controller.t U) (l : list Obs) : Prop :=
  inits_first l
  /\ Forall (fun n => exists c, n = Update c /\ In (Called (Init c)) l)
       (SchedulerSpec.names (Scheduler.tasks (Controller.scheduler k))).

(** ** Small programs to run the model on *)

Module Demo.

(** A body that takes no time and returns. *)
Definition quiet : Body unit := fun _ _ => mkReply 0%N false tt.

(** A body that throws. *)
Definition failing : Body unit := fun _ _ => mkReply 0%N true tt.

Definition boot (t : Z) : World unit :=
  {| clock := t; jitter := []; history := []; user := tt |}.

(** The two components of main, TemperatureSensor and LED, with what
    they print left out: init and update return at once. *)
Definition sensor : Controller.Component unit :=
  Controller.mkComponent 1 quiet quiet.

Definition led : Controller.Component unit :=
  Controller.mkComponent 2 quiet quiet.

(** A component whose init throws. *)

Definition broken : Controller.Component unit :=
  Controller.mkComponent 3 failing quiet.

Definition job (n : nat) : Scheduler.Callable unit :=
  Scheduler.mkCallable (Fn n) quiet.

Definition listener (n : nat) : EventBus.Handler unit :=
  EventBus.mkHandler n (fun _ => quiet).

Definition alert : Event := mkEvent "ALERT" "High temperature detected".

(** A scheduler read one second after start-up: a 100 ms job that was
    due at start-up, and a 700 ms job due at two seconds. *)
Definition late : Scheduler.t unit :=
  Scheduler.mk [ Scheduler.mkTask (job 1) 100 0;
                 Scheduler.mkTask (job 2) 700 (milliseconds 2000) ].

(** A bus with one handler, for another type than ALERT. *)
Definition other_bus : EventBus.t unit :=
  EventBus.registerHandler "STATUS" (listener 7) EventBus.empty.

End Demo.

(** ** The rest of the program *)


(** The world after the handlers [hs] have each been called once with
    [evt], one after the other. *)
Definition deliver {U} (hs : list (EventBus.Handler U)) (evt : Event)
  (w : World U) : World U :=
  fold_left (fun w h => enter (Handled (EventBus.hid h) evt)
                          (EventBus.hcode h evt) w) hs w.

(** What those calls look like in the history. *)
Definition handled {U} (hs : list (EventBus.Handler U)) (evt : Event)
  : list Obs :=
  map (fun h => Handled (EventBus.hid h) evt) hs.

(** The two fields of a Controller go together: the k-th task calls
    update on the k-th stored component, and every stored component has a
    call of init in the history [l]. *)
Definition in_step {U} (k : Controller.t U) (l : list Obs) : Prop :=
  map Scheduler.func (Scheduler.tasks (Controller.scheduler k))
  = map Controller.updater (Controller.components k)
  /\ Forall (fun x => In (Called (Init (Controller.cid x))) l)
       (Controller.components k).


(** *** class Logger *)

Module Logger.

(** enum Level { INFO, WARN, ERROR } *)
Inductive Level := INFO | WARN | ERROR.

(** The switch of log. *)
Definition prefix (lvl : Level) : string :=
  match lvl with
  | INFO => "[INFO] "
  | WARN => "[WARN] "
  | ERROR => "[ERROR] "
  end.

(** std::cout << prefix << msg << std::endl: one more line on the
    output, held as the list of the lines written so far. *)
Definition log (lvl : Level) (msg : string) (out : list string) : list string :=
  out ++ [String.append (prefix lvl) msg].

End Logger.

(** *** What the example components and main's handler act on *)

(** The lines written to std::cout, and how many times rand() has been
    called.  The generator itself is a function [rng] from the number of
    earlier calls to the value returned. *)
Record Env := mkEnv { out : list string; drawn : nat }.

(** rand() *)
Definition rand (rng : nat -> Z) (e : Env) : Z * Env :=
  (rng (drawn e), {| out := out e; drawn := S (drawn e) |}).

(** Logger::log on the output of [e]. *)
Definition print (lvl : Logger.Level) (msg : string) (e : Env) : Env :=
  {| out := Logger.log lvl msg (out e); drawn := drawn e |}.

(** std::to_string(int): the decimal digits, with a minus sign in front
    of a negative number. *)
Definition to_string (n : Z) : string := pretty n.

(** class TemperatureSensor *)
Module TemperatureSensor.

Definition init (e : Env) : Env :=
  print Logger.INFO "TemperatureSensor initialized" e.

(** return 20 + rand()%10; the % of C++ truncates toward zero. *)
Definition read (rng : nat -> Z) (e : Env) : Z * Env :=
  let '(r, e1) := rand rng e in (20 + Z.rem r 10, e1).

Definition update (rng : nat -> Z) (e : Env) : Env :=
  let '(v, e1) := read rng e in
  print Logger.INFO (String.append "TemperatureSensor value: " (to_string v)) e1.

End TemperatureSensor.

(** class LED *)
Module LED.

Definition init (e : Env) : Env := print Logger.INFO "LED initialized" e.

Definition write (value : Z) (e : Env) : Env :=
  print Logger.INFO (String.append "LED set to " (to_string value)) e.

(** write(rand()%100) *)
Definition update (rng : nat -> Z) (e : Env) : Env :=
  let '(r, e1) := rand rng e in write (Z.rem r 100) e1.

End LED.

(** The bus that main builds: one handler for "ALERT", which logs a
    warning with the payload.  [cost] is the time a call of it takes. *)
Module Main.

Definition on_alert (cost : Z -> Env -> N) : EventBus.Handler Env :=
  EventBus.mkHandler 0
    (fun e t u =>
       mkReply (cost t u) false
         (print Logger.WARN (String.append "ALERT event received: " (payload e)) u)).

Definition bus (cost : Z -> Env -> N) : EventBus.t Env :=
  EventBus.registerHandler "ALERT" (on_alert cost) EventBus.empty.

End Main.

(** *** More small programs *)

Module Cases.

(** A handler that throws. *)
Definition thrower (n : nat) : EventBus.Handler unit :=
  EventBus.mkHandler n (fun _ => Demo.failing).


(** Three handlers for ALERT, the second of which throws. *)
Definition mixed_bus : EventBus.t unit :=
  EventBus.registerHandler "ALERT" (Demo.listener 3)
    (EventBus.registerHandler "ALERT" (thrower 2)
       (EventBus.registerHandler "ALERT" (Demo.listener 1) EventBus.empty)).


(** A 20 ms task beside a 700 ms task. *)
Definition fast : Scheduler.t unit :=
  Scheduler.mk [ Scheduler.mkTask (Demo.job 1) 20 0;
                 Scheduler.mkTask (Demo.job 2) 700 0 ].

(** A generator for rand(). *)
Definition dice (n : nat) : Z := 1234 + Z.of_nat n.

Definition blank : Env := {| out := []; drawn := 0 |}.

(** A client that adds a component whose init throws, then a sound one,
    then runs. *)
Definition script : list (Controller.Op unit) :=
  [Controller.Add Demo.broken 1000; Controller.Add Demo.sensor 500;
   Controller.Run 10].

End Cases.

(** * Properties *)

(** ** Runtime *)

Section RuntimeFacts.
Context {U : Type}.
Implicit Types (w : World U) (b : Body U).

Lemma invoke_calm o b w : calm b -> invoke o b w = Done tt (enter o b w).
Proof. intros Hb. unfold invoke. now rewrite Hb. Qed.

Lemma invoke_world o b w : world_of (invoke o b w) = enter o b w.
Proof. unfold invoke. now destruct (raised _). Qed.

Lemma enter_clock o b w : clock w <= clock (enter o b w).
Proof. unfold enter; simpl. lia. Qed.

Lemma sleep_clock d w : clock w + d <= clock (sleep_for d w).
Proof. unfold sleep_for; simpl. lia. Qed.

Lemma with_state_world {S T} (f : S -> T) (o : Outcome U S) :
  world_of (with_state f o) = world_of o.
Proof. now destruct o. Qed.

Lemma with_state_state {S T} (f : S -> T) (o : Outcome U S) :
  state_of (with_state f o) = f (state_of o).
Proof. now destruct o. Qed.

Lemma with_state_returned {S T} (f : S -> T) (o : Outcome U S) :
  returned (with_state f o) = returned o.
Proof. now destruct o. Qed.

End RuntimeFacts.

(** ** Scheduler *)

Module SchedulerFacts.
Import Scheduler SchedulerSpec.
Section SchedulerFacts.
Context {U : Type}.
Implicit Types (w : World U) (ts : list (Task U)) (s : Scheduler.t U).

Lemma play_cons (f : Callable U) fs w :
  play (f :: fs) w = play fs (enter (Called (name f)) (code f) w).
Proof. reflexivity. Qed.

Lemma history_play (fs : list (Callable U)) w :
  history (play fs w) = history w ++ map (fun f => Called (name f)) fs.
Proof.
  revert w. induction fs as [|f fs IH]; intros w.
  - simpl. now rewrite app_nil_r.
  - rewrite play_cons, IH. simpl. now rewrite <- app_assoc.
Qed.

Lemma clock_play (fs : list (Callable U)) w : clock w <= clock (play fs w).
Proof.
  revert w. induction fs as [|f fs IH]; intros w; [simpl; lia|].
  rewrite play_cons. etransitivity; [|apply IH]. apply enter_clock.
Qed.

Lemma jitter_play (fs : list (Callable U)) w : jitter (play fs w) = jitter w.
Proof.
  revert w. induction fs as [|f fs IH]; intros w; [easy|].
  now rewrite play_cons, IH.
Qed.

(** The inner loop of run does what the description says when no action
    throws. *)
Lemma for_tasks_calm now ts w :
  all_calm ts ->
  for_tasks now ts w = Done (map (rebase now) ts) (play (fired now ts) w).
Proof.
  intros Hc. revert w. induction Hc as [|t ts Ht _ IH]; intros w.
  - reflexivity.
  - simpl. unfold rebase, fired, due; simpl.
    destruct (nextRun t <=? now) eqn:E.
    + unfold call. rewrite (invoke_calm _ _ _ Ht). rewrite IH. reflexivity.
    + rewrite IH. reflexivity.
Qed.

Lemma tick_calm s w :
  all_calm (tasks s) ->
  tick s w = Done (fst (tick_spec s w)) (snd (tick_spec s w)).
Proof.
  intros Hc. unfold tick. now rewrite (for_tasks_calm _ _ _ Hc).
Qed.

Lemma func_rebase now ts : map func (map (rebase now) ts) = map func ts.
Proof.
  rewrite map_map. apply map_ext. intros t. unfold rebase.
  now destruct (due now t).
Qed.

Lemma all_calm_rebase now ts : all_calm ts -> all_calm (map (rebase now) ts).
Proof.
  unfold all_calm. induction 1 as [|t ts Ht _ IH]; simpl; constructor; auto.
  unfold rebase. now destruct (due now t).
Qed.


(** *** What the loops leave alone, whether or not an action throws *)

Lemma for_tasks_keeps {A} (proj : Task U -> A) now ts w :
  (forall t, proj (rearm now t) = proj t) ->
  map proj (state_of (for_tasks now ts w)) = map proj ts.
Proof.
  intros Hp. revert w. induction ts as [|t ts IH]; intros w; [reflexivity|].
  simpl. destruct (nextRun t <=? now).
  - destruct (call (func t) w) as [[] w1|[] w1]; [|reflexivity].
    rewrite with_state_state. simpl. now rewrite Hp, IH.
  - rewrite with_state_state. simpl. now rewrite IH.
Qed.

Lemma tick_keeps {A} (proj : Task U -> A) s w :
  (forall now t, proj (rearm now t) = proj t) ->
  map proj (tasks (state_of (tick s w))) = map proj (tasks s).
Proof.
  intros Hp. unfold tick.
  pose proof (for_tasks_keeps proj (now w) (tasks s) w (Hp (now w))) as H.
  now destruct (for_tasks (now w) (tasks s) w).
Qed.

Lemma for_cycles_keeps {A} (proj : Task U -> A) n s w :
  (forall now t, proj (rearm now t) = proj t) ->
  map proj (tasks (state_of (for_cycles n s w))) = map proj (tasks s).
Proof.
  intros Hp. revert s w. induction n as [|n IH]; intros s w; [reflexivity|].
  simpl. pose proof (tick_keeps proj s w Hp) as H.
  destruct (tick s w) as [s1 w1|s1 w1]; simpl in *; [|exact H].
  now rewrite IH.
Qed.

(** *** What the loops write into the history *)

Lemma calls_of_ticks ts l : calls_of ts l -> ticks l = 0%nat.
Proof.
  induction 1 as [|o l (t & _ & ->) _ IH]; [reflexivity|exact IH].
Qed.

Lemma calls_of_tail t ts l : calls_of ts l -> calls_of (t :: ts) l.
Proof.
  induction 1 as [|o l (t0 & Hin & ->) _ IH]; constructor; [|exact IH].
  exists t0. split; [now right|reflexivity].
Qed.

Lemma for_tasks_history now ts w :
  exists l, history (world_of (for_tasks now ts w)) = history w ++ l
            /\ calls_of ts l.
Proof.
  revert w. induction ts as [|t ts IH]; intros w.
  - exists []. simpl. split; [now rewrite app_nil_r|constructor].
  - simpl. destruct (nextRun t <=? now).
    + unfold call.
      pose proof (invoke_world (Called (name (func t))) (code (func t)) w) as Hw.
      assert (Ht : exists t0, In t0 (t :: ts)
                     /\ Called (name (func t)) = Called (name (func t0)))
        by (exists t; split; [now left|reflexivity]).
      destruct (invoke _ _ w) as [[] w1|[] w1]; simpl in Hw; subst w1.
      * rewrite with_state_world. destruct (IH (enter (Called (name (func t)))
                                                 (code (func t)) w)) as (l & Hl & Hc).
        exists (Called (name (func t)) :: l). split.
        -- rewrite Hl. simpl. now rewrite <- app_assoc.
        -- constructor; [exact Ht|now apply calls_of_tail].
      * exists [Called (name (func t))]. split; [reflexivity|].
        constructor; [exact Ht|constructor].
    + rewrite with_state_world. destruct (IH w) as (l & Hl & Hc).
      exists l. split; [exact Hl|now apply calls_of_tail].
Qed.

Lemma ticks_app l1 l2 : ticks (l1 ++ l2) = (ticks l1 + ticks l2)%nat.
Proof. unfold ticks. now rewrite List.filter_app, length_app. Qed.

(** A run of [n] iterations that returns has slept [n] times; one that
    an exception has left has slept fewer times. *)
Lemma for_cycles_ticks n s w :
  exists l, history (world_of (for_cycles n s w)) = history w ++ l
            /\ if returned (for_cycles n s w)
               then ticks l = n else (ticks l < n)%nat.
Proof.
  revert s w. induction n as [|n IH]; intros s w.
  - exists []. simpl. split; [now rewrite app_nil_r|reflexivity].
  - simpl. unfold tick.
    destruct (for_tasks_history (now w) (tasks s) w) as (l0 & Hl0 & Hc).
    apply calls_of_ticks in Hc.
    destruct (for_tasks (now w) (tasks s) w) as [ts w1|ts w1]; simpl in Hl0.
    + destruct (IH (mk ts) (sleep_for (milliseconds 50) w1)) as (l & Hl & Hn).
      exists (l0 ++ Slept (milliseconds 50) :: l). split.
      * rewrite Hl. simpl. rewrite Hl0. now rewrite <- !app_assoc.
      * rewrite ticks_app. change (ticks (Slept (milliseconds 50) :: l))
          with (S (ticks l)).
        destruct (returned _); lia.
    + exists l0. simpl. split; [exact Hl0|lia].
Qed.

Lemma for_cycles_calm n s w :
  all_calm (tasks s) -> returned (for_cycles n s w) = true.
Proof.
  revert s w. induction n as [|n IH]; intros s w Hc; [reflexivity|].
  simpl. rewrite (tick_calm _ _ Hc). apply IH. simpl.
  now apply all_calm_rebase.
Qed.


(** *** One tick of run *)

Lemma run_peel cycles s w :
  0 < cycles ->
  run cycles s w =
    match tick s w with
    | Done s1 w1 => run (cycles - 1) s1 w1
    | Threw s1 w1 => Threw s1 w1
    end.
Proof.
  intros Hc. unfold run.
  replace (Z.to_nat cycles) with (S (Z.to_nat (cycles - 1))) by lia.
  reflexivity.
Qed.

Lemma history_tick_spec s w :
  history (snd (tick_spec s w)) =
    history w
    ++ map (fun t => Called (name (func t))) (List.filter (due (now w)) (tasks s))
    ++ [Slept (milliseconds 50)].
Proof.
  simpl. rewrite history_play. unfold fired. rewrite map_map.
  now rewrite <- app_assoc.
Qed.

Lemma rebase_due now (t : Task U) :
  nextRun t <= now ->
  rebase now t = mkTask (func t) (intervalMs t) (now + milliseconds (intervalMs t)).
Proof. intros H. unfold rebase, due. now rewrite (Zle_imp_le_bool _ _ H). Qed.

Lemma rebase_early now (t : Task U) : now < nextRun t -> rebase now t = t.
Proof.
  intros H. unfold rebase, due.
  destruct (nextRun t <=? now) eqn:E; [|reflexivity].
  apply Z.leb_le in E. lia.
Qed.

(** C1. Every tick of run: with [now] the clock reading sampled at the
    start of the tick, the actions of the tasks whose nextRun is at or
    before [now] are called, once each and in registration order, the
    other tasks are not called, and each task that was called gets
    nextRun = now + its period, whatever its nextRun was before; the run
    then goes on with one tick less.  A task that is many periods late is
    thus called once and becomes due again one full period after this
    tick.  (The actions are taken not to throw.) *)
Theorem run_tick_rebases_from_now cycles s w :
  0 < cycles ->
  all_calm (tasks s) ->
  run cycles s w =
    run (cycles - 1)
      (mk (map (rebase (now w)) (tasks s)))
      (sleep_for (milliseconds 50) (play (fired (now w) (tasks s)) w))
  /\ history (play (fired (now w) (tasks s)) w) =
       history w ++ map (fun t => Called (name (func t)))
                        (List.filter (due (now w)) (tasks s))
  /\ (forall t, In t (tasks s) -> nextRun t <= now w ->
        rebase (now w) t
        = mkTask (func t) (intervalMs t) (now w + milliseconds (intervalMs t)))
  /\ (forall t, In t (tasks s) -> now w < nextRun t -> rebase (now w) t = t)
  /\ all_calm (map (rebase (now w)) (tasks s)).
Proof.
  intros Hc Hcalm. repeat split.
  - rewrite (run_peel _ _ _ Hc), (tick_calm _ _ Hcalm). reflexivity.
  - rewrite history_play. unfold fired. now rewrite map_map.
  - intros t _ Ht. now apply rebase_due.
  - intros t _ Ht. now apply rebase_early.
  - now apply all_calm_rebase.
Qed.

(** *** Registration *)

Lemma prepare_grows ps s w :
  exists more,
    tasks (fst (prepare ps (s, w))) = tasks s ++ more
    /\ clock w <= clock (snd (prepare ps (s, w)))
    /\ history (snd (prepare ps (s, w))) = history w.
Proof.
  revert s w. induction ps as [|p ps IH]; intros s w.
  - exists []. simpl. rewrite app_nil_r. repeat split; lia.
  - simpl. destruct p as [f ms|d]; simpl.
    + unfold addTask at 1 2 3. simpl.
      match goal with |- context [prepare ps (?s1, w)] =>
        destruct (IH s1 w) as (more & H1 & H2 & H3) end.
      simpl in H1. eexists. rewrite H1, <- app_assoc. repeat split; eauto.
    + destruct (IH s (pause d w)) as (more & H1 & H2 & H3).
      exists more. simpl in *. repeat split; eauto; lia.
Qed.

(** C2. addTask appends a record whose nextRun is the clock reading at
    the call.  Whatever the client then does before the next run (more
    registrations, time passing), the first tick of that run finds the
    task due: its action is called during that tick and its nextRun
    becomes the tick's now plus its period.  (The actions are taken not
    to throw.) *)
Theorem addTask_runs_on_first_tick f ms s w ps cycles :
  0 < cycles ->
  all_calm (tasks (fst (prepare ps (addTask f ms s w)))) ->
  tasks (fst (addTask f ms s w)) = tasks s ++ [mkTask f ms (now w)]
  /\ exists s2 w2 l,
       let s1 := fst (prepare ps (addTask f ms s w)) in
       let w1 := snd (prepare ps (addTask f ms s w)) in
       tick s1 w1 = Done s2 w2
       /\ run cycles s1 w1 = run (cycles - 1) s2 w2
       /\ history w2 = history w1 ++ l ++ [Slept (milliseconds 50)]
       /\ In (Called (name f)) l
       /\ calls_of (tasks s1) l
       /\ nth_error (tasks s2) (length (tasks s))
          = Some (mkTask f ms (now w1 + milliseconds ms)).
Proof.
  intros Hc Hcalm. split; [reflexivity|].
  unfold addTask in *. simpl in *.
  set (t0 := {| func := f; intervalMs := ms; nextRun := now w |}) in *.
  destruct (prepare_grows ps {| tasks := tasks s ++ [t0] |} w)
    as (more & Ht & Hclock & _).
  set (s1 := fst (prepare ps _)) in *. set (w1 := snd (prepare ps _)) in *.
  simpl in Ht.
  assert (Hdue : nextRun t0 <= now w1) by exact Hclock.
  assert (Hin : In t0 (tasks s1))
    by (rewrite Ht; apply in_or_app; left; apply in_or_app; right; now left).
  exists (fst (tick_spec s1 w1)), (snd (tick_spec s1 w1)),
    (map (fun t => Called (name (func t))) (List.filter (due (now w1)) (tasks s1))).
  repeat split.
  - now apply tick_calm.
  - rewrite (run_peel _ _ _ Hc), (tick_calm _ _ Hcalm). reflexivity.
  - apply history_tick_spec.
  - change (Called (name f)) with ((fun t => Called (name (func t))) t0).
    apply in_map. apply filter_In. split; [exact Hin|].
    unfold due. now apply Z.leb_le.
  - clear. induction (tasks s1) as [|t ts IH]; simpl; [constructor|].
    destruct (due (now w1) t); simpl.
    + constructor; [exists t; split; [now left|reflexivity]|].
      now apply calls_of_tail.
    + now apply calls_of_tail.
  - simpl. rewrite nth_error_map, Ht, <- app_assoc.
    rewrite nth_error_app2 by lia. rewrite Nat.sub_diag. simpl.
    now rewrite (rebase_due _ _ Hdue).
Qed.

(** *** The whole run *)

(** C7. run with a cycles of zero or more always ends.  When it returns
    it has gone through exactly [cycles] ticks (each tick ends with its
    one sleep); when an exception of an action has left it, through
    fewer.  It returns whenever no action throws.  run(0) calls nothing,
    sleeps not at all and returns with scheduler and world as they
    were. *)
Theorem run_performs_cycles_ticks cycles s w :
  0 <= cycles ->
  run 0 s w = Done s w
  /\ exists l,
       history (world_of (run cycles s w)) = history w ++ l
       /\ (if returned (run cycles s w)
           then Z.of_nat (ticks l) = cycles
           else Z.of_nat (ticks l) < cycles)
       /\ (all_calm (tasks s) -> returned (run cycles s w) = true).
Proof.
  intros Hc. split; [reflexivity|]. unfold run.
  destruct (for_cycles_ticks (Z.to_nat cycles) s w) as (l & Hl & Hn).
  exists l. split; [exact Hl|]. split.
  - destruct (returned _); lia.
  - apply for_cycles_calm.
Qed.

(** C9. run never adds or removes a task record and never changes the
    action or the period of one: after run(cycles), returned or left by
    an exception, the tasks are as many as before and the k-th task has
    the action and the period it had; only nextRun can differ. *)
Theorem run_changes_only_nextRun cycles s w :
  length (tasks (state_of (run cycles s w))) = length (tasks s)
  /\ map func (tasks (state_of (run cycles s w))) = map func (tasks s)
  /\ map intervalMs (tasks (state_of (run cycles s w)))
     = map intervalMs (tasks s).
Proof.
  assert (Hf : map func (tasks (state_of (run cycles s w))) = map func (tasks s))
    by (apply for_cycles_keeps; reflexivity).
  repeat split.
  - rewrite <- (length_map func), Hf. apply length_map.
  - exact Hf.
  - apply for_cycles_keeps. reflexivity.
Qed.

End SchedulerFacts.
End SchedulerFacts.

(** ** EventBus *)

Module EventBusFacts.
Import EventBus.
Section EventBusFacts.
Context {U : Type}.
Implicit Types (w : World U) (b : EventBus.t U) (h : Handler U).

(** Without the count test in front of it, operator[] would leave an
    empty entry behind for a key that was missing. *)
Lemma subscript_missing (m : gmap string (list (Handler U))) k :
  m !! k = None -> snd (subscript m k) !! k = Some [].
Proof. intros H. unfold subscript. rewrite H. simpl. apply lookup_insert_eq. Qed.

Lemma subscript_present (m : gmap string (list (Handler U))) k v :
  m !! k = Some v -> subscript m k = (v, m).
Proof. intros H. unfold subscript. now rewrite H. Qed.

Lemma registerHandler_same ty h b :
  subscribers (registerHandler ty h b) ty = subscribers b ty ++ [h].
Proof.
  unfold registerHandler, subscribers, subscript.
  destruct (handlers b !! ty) as [v|]; simpl; now rewrite lookup_insert_eq.
Qed.

Lemma registerHandler_other ty ty' h b :
  ty <> ty' -> subscribers (registerHandler ty h b) ty' = subscribers b ty'.
Proof.
  intros Hne. unfold registerHandler, subscribers, subscript.
  destruct (handlers b !! ty) as [v|]; simpl;
    now rewrite ?lookup_insert_ne by exact Hne.
Qed.

(** emit delivers to the subscribers of the event's type and hands the
    registry back as it was. *)
Lemma emit_delivers evt b w :
  emit evt b w
  = with_state (fun _ => b) (for_handlers (subscribers b (type evt)) evt w).
Proof.
  unfold emit, count, subscribers, subscript. destruct b as [m]. simpl.
  now destruct (m !! type evt).
Qed.

(** C5. Register two handlers for a type K that had none, then emit one
    event of type K: the first handler is called with the event, then
    the second with the same event, and nothing else is called.  (The
    first handler is taken to return; the second is called whether or
    not it then throws.) *)
Theorem two_handlers_once_each_in_order K h1 h2 evt b w :
  type evt = K ->
  subscribers b K = [] ->
  raised (hcode h1 evt (clock w) (user w)) = false ->
  subscribers (registerHandler K h2 (registerHandler K h1 b)) K = [h1; h2]
  /\ world_of (emit evt (registerHandler K h2 (registerHandler K h1 b)) w)
     = enter (Handled (hid h2) evt) (hcode h2 evt)
         (enter (Handled (hid h1) evt) (hcode h1 evt) w)
  /\ history (world_of (emit evt (registerHandler K h2 (registerHandler K h1 b)) w))
     = history w ++ [Handled (hid h1) evt; Handled (hid h2) evt].
Proof.
  intros HK Hnone Hret.
  assert (Hsub : subscribers (registerHandler K h2 (registerHandler K h1 b)) K
                 = [h1; h2])
    by (now rewrite !registerHandler_same, Hnone).
  split; [exact Hsub|].
  assert (Hw : world_of (emit evt (registerHandler K h2 (registerHandler K h1 b)) w)
               = enter (Handled (hid h2) evt) (hcode h2 evt)
                   (enter (Handled (hid h1) evt) (hcode h1 evt) w)).
  { rewrite emit_delivers, with_state_world, HK, Hsub. simpl.
    unfold invoke at 1. rewrite Hret.
    pose proof (invoke_world (Handled (hid h2) evt) (hcode h2 evt)
                  (enter (Handled (hid h1) evt) (hcode h1 evt) w)) as Hw.
    now destruct (invoke _ _ _) as [[] w2|[] w2]. }
  split; [exact Hw|]. rewrite Hw. unfold enter; simpl.
  now rewrite <- app_assoc.
Qed.

(** C6. Emitting an event whose type has no handler (the key is missing,
    or is there with an empty vector) returns at once with the bus and
    the world as they were: nothing is called, nothing is thrown. *)
Theorem emit_without_handlers_is_noop evt b w :
  subscribers b (type evt) = [] ->
  emit evt b w = Done b w.
Proof. intros H. now rewrite emit_delivers, H. Qed.

(** C10. emit gives the registry back unchanged, whether the handlers
    return or one of them throws: the same keys, and under every key the
    same handlers in the same order.  In particular no key is added for
    an event of a type that was never registered. *)
Theorem emit_keeps_registry evt b w :
  state_of (emit evt b w) = b
  /\ dom (handlers (state_of (emit evt b w))) = dom (handlers b)
  /\ forall k, handlers (state_of (emit evt b w)) !! k = handlers b !! k.
Proof.
  assert (H : state_of (emit evt b w) = b)
    by (now rewrite emit_delivers, with_state_state).
  rewrite H. repeat split.
Qed.

End EventBusFacts.
End EventBusFacts.

(** ** Controller *)

Module ControllerFacts.
Import Scheduler SchedulerSpec SchedulerFacts Controller.
Section ControllerFacts.
Context {U : Type}.
Implicit Types (w : World U) (k : Controller.t U) (x : Component U).

(** *** What a run writes *)

Lemma for_cycles_history n (s : Scheduler.t U) w :
  exists l, history (world_of (for_cycles n s w)) = history w ++ l
            /\ run_writes (names (tasks s)) l.
Proof.
  revert s w. induction n as [|n IH]; intros s w.
  - exists []. simpl. split; [now rewrite app_nil_r|constructor].
  - simpl. unfold tick.
    destruct (for_tasks_history (now w) (tasks s) w) as (l0 & Hl0 & Hc).
    pose proof (for_tasks_keeps (fun t => name (func t)) (now w) (tasks s) w
                  (fun _ => eq_refl)) as Hn.
    assert (Hw0 : run_writes (names (tasks s)) l0).
    { clear -Hc. induction Hc as [|o l (t & Hin & ->) _ IHc]; constructor; auto.
      right. exists (name (func t)). split; [|reflexivity].
      now apply (in_map (fun t => name (func t))). }
    destruct (for_tasks (now w) (tasks s) w) as [ts w1|ts w1]; simpl in Hl0, Hn.
    + destruct (IH (Scheduler.mk ts) (sleep_for (milliseconds 50) w1))
        as (l & Hl & Hr).
      exists (l0 ++ Slept (milliseconds 50) :: l). split.
      * rewrite Hl. simpl. rewrite Hl0. now rewrite <- !app_assoc.
      * apply Forall_app. split; [exact Hw0|].
        constructor; [now left|]. simpl in Hr. unfold names in *.
        now rewrite Hn in Hr.
    + exists l0. simpl. split; [exact Hl0|exact Hw0].
Qed.

(** *** Order of init and update *)

Lemma inits_first_app l l' :
  inits_first l ->
  (forall c, In (Called (Update c)) l' -> In (Called (Init c)) l) ->
  inits_first (l ++ l').
Proof.
  intros Hl Hl' c l1 l2 Heq.
  apply app_eq_app in Heq as (x & [[-> Hx]|[-> Hx]]).
  - destruct x as [|y x].
    + simpl in Hx. rewrite app_nil_r in Hl'. apply Hl'. rewrite <- Hx. now left.
    + injection Hx as <- _. now apply (Hl c l1 x).
  - apply in_or_app. left. apply Hl'. rewrite Hx.
    apply in_or_app. right. now left.
Qed.

Lemma times_app o l1 l2 : times o (l1 ++ l2) = (times o l1 + times o l2)%nat.
Proof. apply count_occ_app. Qed.

Lemma run_writes_no_init ns l c :
  run_writes ns l ->
  Forall (fun n => exists c', n = Update c') ns ->
  times (Called (Init c)) l = 0%nat.
Proof.
  intros Hl Hns. apply count_occ_not_In. intros Hin.
  unfold run_writes in Hl. rewrite List.Forall_forall in Hl, Hns.
  destruct (Hl _ Hin) as [Hs|(n & Hn & Heq)]; [discriminate|].
  injection Heq as <-. destruct (Hns _ Hn) as (c' & Hc'). discriminate.
Qed.

Lemma settled_grows k l l' :
  settled k l ->
  (forall c, In (Called (Update c)) l' -> In (Called (Init c)) l) ->
  forall k', names (tasks (scheduler k')) = names (tasks (scheduler k)) ->
  settled k' (l ++ l').
Proof.
  intros [Hf Hs] Hl' k' Hk'. split; [now apply inits_first_app|].
  rewrite Hk'. revert Hs. apply List.Forall_impl.
  intros n (c & -> & Hin). exists c. split; [reflexivity|].
  apply in_or_app. now left.
Qed.

(** addComponent writes one entry, the call of init, whether init
    returns or throws. *)
Lemma addComponent_history x ms k w :
  history (world_of (addComponent x ms k w))
  = history w ++ [Called (Init (cid x))].
Proof.
  unfold addComponent.
  pose proof (invoke_world (Called (Init (cid x))) (init x) w) as Hw.
  destruct (invoke _ _ w) as [[] w1|[] w1]; simpl in *; now subst w1.
Qed.

Lemma adds_cons c (op : Op U) ops :
  adds c (op :: ops) = (adds c [op] + adds c ops)%nat.
Proof. unfold adds. simpl. now destruct op as [x ms| |]; [destruct (_ =? _)%nat| |]. Qed.

(** One call of a client keeps the Controller settled. *)
Lemma step_settled (op : Op U) k w h0 l :
  history w = h0 ++ l ->
  settled k l ->
  exists l',
    history (snd (step (k, w) op)) = h0 ++ l ++ l'
    /\ settled (fst (step (k, w) op)) (l ++ l')
    /\ forall c, times (Called (Init c)) l' = adds c [op].
Proof.
  intros Hh Hs. destruct op as [x ms|n|d]; simpl.
  - exists [Called (Init (cid x))]. split; [|split].
    + rewrite addComponent_history, Hh. now rewrite <- app_assoc.
    + unfold addComponent.
      destruct (invoke _ _ w) as [[] w1|[] w1]; simpl.
      * destruct Hs as [Hf Hs]. split.
        -- apply inits_first_app; [exact Hf|]. intros c [H|[]]. discriminate.
        -- unfold names. cbn [scheduler tasks]. rewrite List.map_app. apply Forall_app. split.
           ++ revert Hs. apply List.Forall_impl.
              intros n (c & -> & Hin). exists c. split; [reflexivity|].
              apply in_or_app. now left.
           ++ constructor; [|constructor]. exists (cid x). split; [reflexivity|].
              apply in_or_app. right. now left.
      * apply (settled_grows k); [exact Hs| |reflexivity].
        intros c [H|[]]. discriminate.
    + intros c. unfold times, adds. cbn [List.filter].
      destruct (Nat.eqb_spec (cid x) c) as [<-|Hne].
      * now rewrite count_occ_cons_eq.
      * rewrite count_occ_cons_neq; [reflexivity|congruence].
  - unfold Controller.run, Scheduler.run.
    rewrite with_state_world, with_state_state. simpl.
    destruct (for_cycles_history (Z.to_nat n) (scheduler k) w) as (l' & Hl' & Hw).
    pose proof (for_cycles_keeps (fun t => name (func t)) (Z.to_nat n)
                  (scheduler k) w (fun _ _ => eq_refl)) as Hn.
    assert (Hup : Forall (fun n => exists c', n = Update c') (names (tasks (scheduler k)))).
    { destruct Hs as [_ Hs]. revert Hs. apply List.Forall_impl.
      intros m (c & -> & _). now exists c. }
    exists l'. split; [|split].
    + now rewrite Hl', Hh, <- app_assoc.
    + apply (settled_grows k); [exact Hs| |exact Hn].
      intros c Hin. unfold run_writes in Hw. rewrite List.Forall_forall in Hw.
      destruct (Hw _ Hin) as [Hsl|(m & Hm & Heq)]; [discriminate|].
      injection Heq as <-. destruct Hs as [_ Hs].
      rewrite List.Forall_forall in Hs.
      destruct (Hs _ Hm) as (c' & Hc' & Hin'). now injection Hc' as ->.
    + intros c. now apply run_writes_no_init with (ns := names (tasks (scheduler k))).
  - exists []. rewrite !app_nil_r. split; [exact Hh|]. split; [exact Hs|].
    reflexivity.
Qed.

Lemma exec_settled (ops : list (Op U)) k w h0 l :
  history w = h0 ++ l ->
  settled k l ->
  exists l',
    history (snd (exec ops (k, w))) = h0 ++ l ++ l'
    /\ settled (fst (exec ops (k, w))) (l ++ l')
    /\ forall c, times (Called (Init c)) l' = adds c ops.
Proof.
  revert k w l. induction ops as [|op ops IH]; intros k w l Hh Hs.
  - exists []. rewrite !app_nil_r. simpl. split; [exact Hh|].
    split; [exact Hs|reflexivity].
  - destruct (step_settled op k w h0 l Hh Hs) as (l1 & H1 & Hs1 & Hc1).
    simpl. destruct (step (k, w) op) as [k1 w1]. simpl in *.
    destruct (IH k1 w1 (l ++ l1) H1 Hs1) as (l2 & H2 & Hs2 & Hc2).
    exists (l1 ++ l2). rewrite <- !app_assoc in H2, Hs2.
    split; [exact H2|]. split; [exact Hs2|].
    intros c. rewrite times_app, adds_cons. now rewrite Hc1, Hc2.
Qed.

(** C3. Take any client of a fresh Controller: any sequence of
    addComponent calls with any periods, of runs of any length and of
    idle time, going on after an exception if it catches it.  In the
    history it leaves, init of a component occurs once for every time the
    component was handed to addComponent (exactly once for a component
    added once), and every call of update on a component comes after a
    call of init on that component. *)
Theorem init_once_and_before_update (ops : list (Op U)) w :
  exists l,
    history (snd (exec ops (Controller.empty, w))) = history w ++ l
    /\ (forall c, times (Called (Init c)) l = adds c ops)
    /\ inits_first l.
Proof.
  destruct (exec_settled ops Controller.empty w (history w) []) as (l & Hl & Hs & Hc).
  - now rewrite app_nil_r.
  - split; [|constructor]. intros c l1 l2 H. now destruct l1.
  - exists l. simpl in *. split; [exact Hl|]. split; [exact Hc|]. apply Hs.
Qed.

(** C4. When init throws, addComponent is left by the exception with the
    Controller as it was before the call: the component is not among the
    components and the Scheduler has no task for it. *)
Theorem addComponent_init_throws x ms k w :
  raised (init x (clock w) (user w)) = true ->
  addComponent x ms k w = Threw k (enter (Called (Init (cid x))) (init x) w)
  /\ components (state_of (addComponent x ms k w)) = components k
  /\ scheduler (state_of (addComponent x ms k w)) = scheduler k.
Proof.
  intros H. unfold addComponent, invoke. rewrite H. now repeat split.
Qed.


(** *** The system that main builds *)

Lemma for_tasks_idle now (ts : list (Task U)) w :
  Forall (fun t => now < nextRun t) ts -> for_tasks now ts w = Done ts w.
Proof.
  induction 1 as [|t ts Ht _ IH]; [reflexivity|]. simpl.
  destruct (nextRun t <=? now) eqn:E; [apply Z.leb_le in E; lia|].
  now rewrite IH.
Qed.

(** With exact sleeps, ticks that find no task due only sleep. *)
Lemma for_cycles_idle n (s : Scheduler.t U) w :
  jitter w = [] ->
  Forall (fun t => clock w + milliseconds 50 * (Z.of_nat n - 1) < nextRun t)
    (tasks s) ->
  for_cycles n s w =
    Done s {| clock := clock w + milliseconds 50 * Z.of_nat n;
              jitter := [];
              history := history w ++ repeat (Slept (milliseconds 50)) n;
              user := user w |}.
Proof.
  revert w. induction n as [|n IH]; intros w Hj Hlate.
  - simpl. destruct w as [c j h u]. simpl in *. subst j.
    now rewrite app_nil_r, Z.mul_0_r, Z.add_0_r.
  - cbn [for_cycles]. unfold tick. rewrite for_tasks_idle.
    + destruct s as [ts]. cbn [tasks] in *. rewrite IH.
      * unfold sleep_for. rewrite Hj. cbn [clock jitter history user hd tl].
        f_equal. f_equal; [lia|]. now rewrite <- app_assoc.
      * unfold sleep_for. now rewrite Hj.
      * revert Hlate. apply List.Forall_impl. intros t Ht.
        unfold sleep_for. rewrite Hj. cbn [clock hd]. lia.
    + revert Hlate. apply List.Forall_impl. intros t Ht. unfold now.
      unfold milliseconds in Ht. lia.
Qed.

Lemma addComponent_calm x ms k w :
  calm (init x) ->
  addComponent x ms k w =
    Done {| components := components k ++ [x];
            scheduler :=
              Scheduler.mk
                (tasks (scheduler k)
                 ++ [mkTask (updater x) ms
                       (clock (enter (Called (Init (cid x))) (init x) w))]) |}
      (enter (Called (Init (cid x))) (init x) w).
Proof. intros Hc. unfold addComponent. now rewrite (invoke_calm _ _ _ Hc). Qed.

Lemma enter_instant o (b : Body U) w :
  instant b ->
  enter o b w = {| clock := clock w; jitter := jitter w;
                   history := history w ++ [o];
                   user := after (b (clock w) (user w)) |}.
Proof.
  intros Hb. unfold enter. destruct (Hb (clock w) (user w)) as [_ ->].
  now rewrite Z.add_0_r.
Qed.

Lemma instant_calm (b : Body U) : instant b -> calm b.
Proof. intros Hb t u. apply Hb. Qed.

(** C8, as the code has it.  Two components added with periods 500 ms
    and 700 ms, then run(10), with exact 50 ms sleeps and updates that
    take no time and do not throw: both updates are called on the first
    tick, A's then B's, before any sleep, and neither is called again in
    the nine ticks that follow.  When the run returns the clock stands
    500 ms after the first tick, A is due at that very instant and B
    200 ms later. *)
Theorem main_fires_both_on_first_tick (a b : Component U) w :
  calm (init a) -> calm (init b) ->
  instant (update a) -> instant (update b) ->
  jitter w = [] ->
  let start := clock (enter (Called (Init (cid b))) (init b)
                        (enter (Called (Init (cid a))) (init a) w)) in
  history (snd (main_system a b w))
  = history w
    ++ [Called (Init (cid a)); Called (Init (cid b));
        Called (Update (cid a)); Called (Update (cid b))]
    ++ repeat (Slept (milliseconds 50)) 10
  /\ clock (snd (main_system a b w)) = start + milliseconds 500
  /\ map nextRun (tasks (scheduler (fst (main_system a b w))))
     = [start + milliseconds 500; start + milliseconds 700].
Proof.
  intros Hia Hib Hua Hub Hj start.
  unfold main_system, exec. cbn [fold_left step fst snd].
  rewrite (addComponent_calm a _ _ _ Hia). cbn [state_of world_of].
  rewrite (addComponent_calm b _ _ _ Hib). cbn [state_of world_of].
  set (wa := enter (Called (Init (cid a))) (init a) w) in *.
  set (wb := enter (Called (Init (cid b))) (init b) wa) in *.
  cbn [components scheduler tasks Controller.empty Scheduler.empty app].
  unfold Controller.run. rewrite !with_state_world, !with_state_state.
  cbn [scheduler].
  assert (Hab : clock wa <= clock wb) by apply enter_clock.
  assert (Hwb : history wb = history w ++ [Called (Init (cid a)); Called (Init (cid b))])
    by (unfold wb, wa, enter; cbn [history]; now rewrite <- app_assoc).
  assert (Hjb : jitter wb = []) by exact Hj.
  rewrite run_peel by lia. unfold tick, Runtime.now.
  cbn [for_tasks tasks nextRun func intervalMs].
  rewrite (Zle_imp_le_bool _ _ Hab), Z.leb_refl.
  unfold call, updater. cbn [name code].
  rewrite (invoke_calm _ _ _ (instant_calm _ Hua)). cbn [with_state].
  rewrite (invoke_calm _ _ _ (instant_calm _ Hub)). cbn [with_state].
  rewrite !(enter_instant _ _ _ Hub), !(enter_instant _ _ _ Hua).
  cbn [clock jitter history user]. unfold Scheduler.run.
  change (Z.to_nat (10 - 1)) with 9%nat.
  unfold sleep_for. rewrite Hjb. cbn [clock jitter history user hd tl].
  rewrite for_cycles_idle; cbn [clock jitter history user tasks].
  - cbn [world_of state_of tasks map rearm nextRun intervalMs history clock].
    fold start. rewrite Hwb. repeat split.
    + rewrite <- !app_assoc. reflexivity.
    + unfold milliseconds. lia.
  - reflexivity.
  - unfold rearm, milliseconds. cbn [nextRun intervalMs].
    repeat constructor; cbn [nextRun]; lia.
Qed.

End ControllerFacts.
End ControllerFacts.

(** ** The theorems at work on the small programs *)

Lemma quiet_calm : calm Demo.quiet.
Proof. intros t u. reflexivity. Defined.

Lemma quiet_instant : instant Demo.quiet.
Proof. intros t u. split; reflexivity. Defined.

Lemma late_calm : SchedulerSpec.all_calm (Scheduler.tasks Demo.late).
Proof. repeat constructor; exact quiet_calm. Defined.

(** A job that is ten periods late is called once, and is next due one
    period after the tick that called it. *)
Example late_job_runs_once :
  history (world_of (Scheduler.run 1 Demo.late (Demo.boot (milliseconds 1000))))
  = [Called (Fn 1); Slept (milliseconds 50)]
  /\ map Scheduler.nextRun
       (Scheduler.tasks
          (state_of (Scheduler.run 1 Demo.late (Demo.boot (milliseconds 1000)))))
     = [milliseconds 1100; milliseconds 2000].
Proof. split; reflexivity. Qed.

Lemma run_tick_rebases_from_now_witness :
  0 < 10
  /\ SchedulerSpec.all_calm (Scheduler.tasks Demo.late)
  /\ Scheduler.run 10 Demo.late (Demo.boot (milliseconds 1000))
     = Scheduler.run 9
         (Scheduler.mk [ Scheduler.mkTask (Demo.job 1) 100 (milliseconds 1100);
                         Scheduler.mkTask (Demo.job 2) 700 (milliseconds 2000) ])
         (sleep_for (milliseconds 50)
            (enter (Called (Fn 1)) Demo.quiet (Demo.boot (milliseconds 1000)))).
Proof.
  split; [lia|]. split; [exact late_calm|].
  apply (SchedulerFacts.run_tick_rebases_from_now 10 Demo.late
           (Demo.boot (milliseconds 1000))); [lia|exact late_calm].
Defined.

Lemma addTask_runs_on_first_tick_witness :
  0 < 10
  /\ SchedulerSpec.all_calm
       (Scheduler.tasks
          (fst (SchedulerSpec.prepare
                  [SchedulerSpec.Wait 5%N; SchedulerSpec.More (Demo.job 4) 700]
                  (Scheduler.addTask (Demo.job 3) 500 Scheduler.empty (Demo.boot 0)))))
  /\ Scheduler.tasks
       (fst (Scheduler.addTask (Demo.job 3) 500 Scheduler.empty (Demo.boot 0)))
     = [Scheduler.mkTask (Demo.job 3) 500 0].
Proof.
  assert (H : SchedulerSpec.all_calm
       (Scheduler.tasks
          (fst (SchedulerSpec.prepare
                  [SchedulerSpec.Wait 5%N; SchedulerSpec.More (Demo.job 4) 700]
                  (Scheduler.addTask (Demo.job 3) 500 Scheduler.empty (Demo.boot 0))))))
    by (repeat constructor; exact quiet_calm).
  split; [lia|]. split; [exact H|].
  apply (SchedulerFacts.addTask_runs_on_first_tick (Demo.job 3) 500
           Scheduler.empty (Demo.boot 0)
           [SchedulerSpec.Wait 5%N; SchedulerSpec.More (Demo.job 4) 700] 10);
    [lia|exact H].
Defined.

Lemma run_performs_cycles_ticks_witness :
  0 <= 10
  /\ Scheduler.run 0 Demo.late (Demo.boot 0) = Done Demo.late (Demo.boot 0).
Proof.
  split; [lia|].
  apply (SchedulerFacts.run_performs_cycles_ticks 10 Demo.late (Demo.boot 0)). lia.
Defined.

(** Ten ticks, counted on the history. *)
Example ten_cycles_ten_ticks :
  ticks (history (world_of (Scheduler.run 10 Demo.late (Demo.boot 0)))) = 10%nat.
Proof. reflexivity. Qed.

Lemma two_handlers_once_each_in_order_witness :
  type Demo.alert = "ALERT"
  /\ EventBus.subscribers (EventBus.empty (U:=unit)) "ALERT" = []
  /\ raised (EventBus.hcode (Demo.listener 1) Demo.alert 0 tt) = false
  /\ history
       (world_of
          (EventBus.emit Demo.alert
             (EventBus.registerHandler "ALERT" (Demo.listener 2)
                (EventBus.registerHandler "ALERT" (Demo.listener 1) EventBus.empty))
             (Demo.boot 0)))
     = [Handled 1 Demo.alert; Handled 2 Demo.alert].
Proof.
  split; [reflexivity|]. split; [reflexivity|]. split; [reflexivity|].
  apply (EventBusFacts.two_handlers_once_each_in_order "ALERT"
           (Demo.listener 1) (Demo.listener 2) Demo.alert EventBus.empty
           (Demo.boot 0)); reflexivity.
Defined.

Lemma emit_without_handlers_is_noop_witness :
  EventBus.subscribers Demo.other_bus (type Demo.alert) = []
  /\ EventBus.emit Demo.alert Demo.other_bus (Demo.boot 0)
     = Done Demo.other_bus (Demo.boot 0).
Proof.
  split; [reflexivity|].
  apply (EventBusFacts.emit_without_handlers_is_noop Demo.alert Demo.other_bus
           (Demo.boot 0)). reflexivity.
Defined.

Lemma addComponent_init_throws_witness :
  raised (Controller.init Demo.broken 0 tt) = true
  /\ Controller.addComponent Demo.broken 1000 Controller.empty (Demo.boot 0)
     = Threw Controller.empty
         {| clock := 0; jitter := []; history := [Called (Init 3)]; user := tt |}.
Proof.
  split; [reflexivity|].
  apply (ControllerFacts.addComponent_init_throws Demo.broken 1000
           Controller.empty (Demo.boot 0)). reflexivity.
Defined.

(** The history of the system of main with exact sleeps and instant
    updates, clock started at zero. *)
Example main_history :
  history (snd (Controller.main_system Demo.sensor Demo.led (Demo.boot 0)))
  = [Called (Init 1); Called (Init 2); Called (Update 1); Called (Update 2)]
    ++ repeat (Slept (milliseconds 50)) 10.
Proof. reflexivity. Qed.

(** C8 fails as stated: in that run the update of B (period 700 ms) is
    called, on the first tick; it is not true that A's update is called
    once and B's not at all. *)
Lemma main_update_of_B_fires :
  ~ (times (Called (Update 1))
       (history (snd (Controller.main_system Demo.sensor Demo.led (Demo.boot 0))))
     = 1%nat
     /\ times (Called (Update 2))
          (history (snd (Controller.main_system Demo.sensor Demo.led (Demo.boot 0))))
        = 0%nat).
Proof. intros [_ H]. vm_compute in H. discriminate H. Qed.

Lemma main_fires_both_on_first_tick_witness :
  calm (Controller.init Demo.sensor) /\ calm (Controller.init Demo.led)
  /\ instant (Controller.update Demo.sensor)
  /\ instant (Controller.update Demo.led)
  /\ jitter (Demo.boot 0) = []
  /\ history (snd (Controller.main_system Demo.sensor Demo.led (Demo.boot 0)))
     = [Called (Init 1); Called (Init 2); Called (Update 1); Called (Update 2)]
       ++ repeat (Slept (milliseconds 50)) 10.
Proof.
  split; [exact quiet_calm|]. split; [exact quiet_calm|].
  split; [exact quiet_instant|]. split; [exact quiet_instant|].
  split; [reflexivity|].
  apply (ControllerFacts.main_fires_both_on_first_tick Demo.sensor Demo.led
           (Demo.boot 0) quiet_calm quiet_calm quiet_instant quiet_instant
           eq_refl).
Defined.

(** * More properties of the code *)

(** ** EventBus: registration and delivery *)

Module EventBusMore.
Import EventBus.
Section EventBusMore.
Context {U : Type}.
Implicit Types (w : World U) (b : EventBus.t U) (h : Handler U).

Lemma registerHandler_insert ty h b :
  registerHandler ty h b
  = {| handlers := <[ty := subscribers b ty ++ [h]]> (handlers b) |}.
Proof.
  unfold registerHandler, subscribers, subscript.
  destruct (handlers b !! ty) as [v|]; simpl; [reflexivity|].
  now rewrite insert_insert_eq.
Qed.

Lemma subscribers_insert k ty v (m : gmap string (list (Handler U))) :
  subscribers {| handlers := <[ty := v]> m |} k
  = if decide (k = ty) then v else subscribers {| handlers := m |} k.
Proof.
  unfold subscribers. simpl. destruct (decide (k = ty)) as [->|Hne].
  - now rewrite lookup_insert_eq.
  - now rewrite lookup_insert_ne by congruence.
Qed.

(** X1. registerHandler puts the handler at the end of the sequence of its
    type, leaves the sequence of every other type as it was, and makes the
    type a key of the registry without removing any key. *)
Theorem registerHandler_appends ty h b k :
  subscribers (registerHandler ty h b) k
  = (if decide (k = ty) then subscribers b k ++ [h] else subscribers b k)
  /\ dom (handlers (registerHandler ty h b)) = {[ty]} ∪ dom (handlers b).
Proof.
  rewrite registerHandler_insert. split.
  - rewrite subscribers_insert. destruct (decide (k = ty)) as [->|_]; [reflexivity|].
    now destruct b.
  - simpl. apply dom_insert_L.
Qed.

(** X2. Registrations for two different types can be made in either order:
    the registry is the same. *)
Theorem registerHandler_commutes k1 k2 h1 h2 b :
  k1 <> k2 ->
  registerHandler k1 h1 (registerHandler k2 h2 b)
  = registerHandler k2 h2 (registerHandler k1 h1 b).
Proof.
  intros Hne. rewrite !registerHandler_insert. simpl.
  rewrite !subscribers_insert.
  destruct (decide (k1 = k2)) as [E|_]; [contradiction|].
  destruct (decide (k2 = k1)) as [E|_]; [now destruct Hne|].
  destruct b as [m]. unfold subscribers. simpl. f_equal.
  now apply insert_insert_ne.
Qed.

Lemma deliver_cons h hs evt w :
  deliver (h :: hs) evt w
  = deliver hs evt (enter (Handled (hid h) evt) (hcode h evt) w).
Proof. reflexivity. Qed.

Lemma history_deliver hs evt w :
  history (deliver hs evt w) = history w ++ handled hs evt.
Proof.
  revert w. induction hs as [|h hs IH]; intros w.
  - simpl. now rewrite app_nil_r.
  - rewrite deliver_cons, IH. simpl. now rewrite <- app_assoc.
Qed.

Lemma for_handlers_calm hs evt w :
  Forall (fun h => calm (hcode h evt)) hs ->
  for_handlers hs evt w = Done tt (deliver hs evt w).
Proof.
  intros Hc. revert w. induction Hc as [|h hs Hh _ IH]; intros w; [reflexivity|].
  simpl. rewrite (invoke_calm _ _ _ Hh). now rewrite IH.
Qed.


(** X3. When no handler of the event's type throws, emit returns after having
    called every one of them once with the event, in registration order,
    and nothing else. *)
Theorem emit_delivers_to_all_in_order evt b w :
  Forall (fun h => calm (hcode h evt)) (subscribers b (type evt)) ->
  emit evt b w = Done b (deliver (subscribers b (type evt)) evt w)
  /\ history (world_of (emit evt b w))
     = history w ++ handled (subscribers b (type evt)) evt.
Proof.
  intros Hc.
  assert (H : emit evt b w = Done b (deliver (subscribers b (type evt)) evt w))
    by (rewrite EventBusFacts.emit_delivers, (for_handlers_calm _ _ _ Hc);
        reflexivity).
  split; [exact H|]. rewrite H. apply history_deliver.
Qed.


(** X5. Handlers registered for another type do not matter to an emit: with
    or without such a registration the same calls are made and emit ends
    the same way. *)
Theorem emit_ignores_other_types evt ty h b w :
  ty <> type evt ->
  world_of (emit evt (registerHandler ty h b) w) = world_of (emit evt b w)
  /\ returned (emit evt (registerHandler ty h b) w) = returned (emit evt b w).
Proof.
  intros Hne.
  rewrite !EventBusFacts.emit_delivers, !with_state_world, !with_state_returned.
  now rewrite (EventBusFacts.registerHandler_other _ _ _ _ Hne).
Qed.

(** X6. A handler just registered for a type gets the next event of that
    type, after the handlers that were registered before it. *)
Theorem registered_handler_is_called_last evt h b w :
  Forall (fun h => calm (hcode h evt)) (subscribers b (type evt)) ->
  history (world_of (emit evt (registerHandler (type evt) h b) w))
  = history w ++ handled (subscribers b (type evt)) evt ++ [Handled (hid h) evt].
Proof.
  intros Hc.
  rewrite EventBusFacts.emit_delivers, with_state_world,
    EventBusFacts.registerHandler_same.
  pose proof (for_handlers_calm _ evt w Hc) as Hd.
  revert Hd. generalize (subscribers b (type evt)). intros hs. revert w.
  induction hs as [|h0 hs IH]; intros w Hd.
  - simpl. pose proof (invoke_world (Handled (hid h) evt) (hcode h evt) w) as Hw.
    destruct (invoke _ _ w) as [[] w1|[] w1]; simpl in *; now subst w1.
  - simpl in Hd |- *.
    pose proof (invoke_world (Handled (hid h0) evt) (hcode h0 evt) w) as Hw.
    destruct (invoke _ _ w) as [[] w1|[] w1]; simpl in Hw; subst w1;
      [|discriminate Hd].
    rewrite IH by exact Hd. simpl. now rewrite <- app_assoc.
Qed.

End EventBusMore.
End EventBusMore.

(** ** Scheduler: length, duration and failure of a run *)

Module SchedulerMore.
Import Scheduler SchedulerSpec SchedulerFacts.
Section SchedulerMore.
Context {U : Type}.
Implicit Types (w : World U) (ts : list (Task U)) (s : Scheduler.t U).

(** X7. A cycles of zero or below gives no tick at all: nothing is called,
    no time is slept, scheduler and world are as they were. *)
Theorem run_nonpositive_is_noop cycles s w :
  cycles <= 0 -> run cycles s w = Done s w.
Proof.
  intros Hc. unfold run. replace (Z.to_nat cycles) with 0%nat by lia.
  reflexivity.
Qed.

Lemma for_cycles_add n m s w :
  for_cycles (n + m) s w =
    match for_cycles n s w with
    | Done s1 w1 => for_cycles m s1 w1
    | Threw s1 w1 => Threw s1 w1
    end.
Proof.
  revert s w. induction n as [|n IH]; intros s w; [reflexivity|].
  simpl. destruct (tick s w) as [s1 w1|s1 w1]; [apply IH|reflexivity].
Qed.

(** X8. Two runs one after the other are one run of the summed length: a run
    of a + b cycles is the run of a cycles followed, when that returns, by
    the run of b cycles from where it ended; an exception in the first
    part ends the whole. *)
Theorem run_splits a b s w :
  0 <= a -> 0 <= b ->
  run (a + b) s w =
    match run a s w with
    | Done s1 w1 => run b s1 w1
    | Threw s1 w1 => Threw s1 w1
    end.
Proof.
  intros Ha Hb. unfold run. rewrite Z2Nat.inj_add by assumption.
  apply for_cycles_add.
Qed.

Lemma for_tasks_clock now ts w : clock w <= clock (world_of (for_tasks now ts w)).
Proof.
  revert w. induction ts as [|t ts IH]; intros w; [simpl; lia|].
  simpl. destruct (nextRun t <=? now).
  - unfold call.
    pose proof (invoke_world (Called (name (func t))) (code (func t)) w) as Hw.
    pose proof (enter_clock (Called (name (func t))) (code (func t)) w) as Hc.
    destruct (invoke _ _ w) as [[] w1|[] w1]; simpl in Hw; subst w1.
    + rewrite with_state_world. etransitivity; [exact Hc|apply IH].
    + exact Hc.
  - rewrite with_state_world. apply IH.
Qed.

Lemma for_cycles_clock n s w :
  clock w + (if returned (for_cycles n s w)
             then Z.of_nat n * milliseconds 50 else 0)
  <= clock (world_of (for_cycles n s w)).
Proof.
  revert s w. induction n as [|n IH]; intros s w; [simpl; lia|].
  cbn [for_cycles]. unfold tick.
  pose proof (for_tasks_clock (now w) (tasks s) w) as Hc.
  destruct (for_tasks (now w) (tasks s) w) as [ts w1|ts w1]; simpl in Hc.
  - specialize (IH (Scheduler.mk ts) (sleep_for (milliseconds 50) w1)).
    pose proof (sleep_clock (milliseconds 50) w1) as Hs.
    unfold milliseconds in *. destruct (returned _); lia.
  - simpl. lia.
Qed.

(** X9. The clock never goes back over a run, and a run that returns has
    taken at least 50 ms for each of its cycles, however short the
    actions are. *)
Theorem run_takes_at_least_50ms_a_cycle cycles s w :
  0 <= cycles ->
  clock w + (if returned (run cycles s w) then cycles * milliseconds 50 else 0)
  <= clock (world_of (run cycles s w)).
Proof.
  intros Hc. unfold run.
  pose proof (for_cycles_clock (Z.to_nat cycles) s w) as H.
  unfold milliseconds in *. destruct (returned _); lia.
Qed.

(** X10. A scheduler without tasks still goes through its cycles: run only
    sleeps, once per cycle, and returns. *)
Theorem run_without_tasks_only_sleeps cycles s w :
  tasks s = [] ->
  returned (run cycles s w) = true
  /\ state_of (run cycles s w) = s
  /\ history (world_of (run cycles s w))
     = history w ++ repeat (Slept (milliseconds 50)) (Z.to_nat cycles)
  /\ user (world_of (run cycles s w)) = user w.
Proof.
  intros Hs. unfold run. generalize (Z.to_nat cycles). intros n.
  destruct s as [ts]. simpl in Hs. subst ts. revert w.
  induction n as [|n IH]; intros w.
  - simpl. now rewrite app_nil_r.
  - cbn [for_cycles]. unfold tick. cbn [tasks for_tasks].
    destruct (IH (sleep_for (milliseconds 50) w)) as (H1 & H2 & H3 & H4).
    repeat split; [exact H1|exact H2| |exact H4].
    rewrite H3. simpl. now rewrite <- app_assoc.
Qed.



(** X12. Whatever the tasks do and however the run ends, it writes nothing
    into the history but its sleeps and calls of the actions that are
    registered. *)
Theorem run_calls_only_registered_actions cycles s w :
  exists l,
    history (world_of (run cycles s w)) = history w ++ l
    /\ run_writes (names (tasks s)) l.
Proof. apply ControllerFacts.for_cycles_history. Qed.


Lemma times_in o (l : list Obs) : In o l -> (1 <= times o l)%nat.
Proof. intros H. apply (count_occ_In Obs_eq_dec) in H. unfold times. lia. Qed.

Lemma for_cycles_short n i :
  forall s w t,
    all_calm (tasks s) ->
    nth_error (tasks s) i = Some t ->
    intervalMs t <= 50 ->
    nextRun t <= clock w ->
    exists l, history (world_of (for_cycles n s w)) = history w ++ l
              /\ (n <= times (Called (name (func t))) l)%nat.
Proof.
  induction n as [|n IH]; intros s w t Hc Hi Hp Hdue.
  - exists []. simpl. split; [now rewrite app_nil_r|lia].
  - cbn [for_cycles]. rewrite (tick_calm _ _ Hc).
    change (clock w) with (now w) in Hdue.
    set (s1 := fst (tick_spec s w)). set (w1 := snd (tick_spec s w)).
    assert (Hh : history w1 = history w
                 ++ map (fun t => Called (name (func t)))
                      (List.filter (due (now w)) (tasks s))
                 ++ [Slept (milliseconds 50)]) by apply history_tick_spec.
    assert (Hin : In (Called (name (func t)))
                    (map (fun t => Called (name (func t)))
                       (List.filter (due (now w)) (tasks s)))).
    { change (Called (name (func t))) with ((fun t => Called (name (func t))) t).
      apply in_map. apply filter_In. split; [eapply nth_error_In; eauto|].
      unfold due. now apply Z.leb_le. }
    destruct (IH s1 w1 (rebase (now w) t)) as (l & Hl & Hn).
    + now apply all_calm_rebase.
    + unfold s1. simpl. now rewrite nth_error_map, Hi.
    + rewrite (rebase_due _ _ Hdue). exact Hp.
    + rewrite (rebase_due _ _ Hdue). cbn [nextRun]. unfold w1, tick_spec, snd.
      pose proof (sleep_clock (milliseconds 50) (play (fired (now w) (tasks s)) w)).
      pose proof (clock_play (fired (now w) (tasks s)) w).
      unfold milliseconds, now in *. lia.
    + rewrite (rebase_due _ _ Hdue) in Hn. cbn [func] in Hn.
      eexists. split.
      * rewrite Hl, Hh. rewrite <- !app_assoc. reflexivity.
      * unfold times in *. rewrite !count_occ_app.
        apply times_in in Hin. unfold times in Hin. lia.
Qed.

(** X13. A task whose period is 50 ms or less, once due, is due again on every
    tick, because every tick sleeps at least 50 ms: over a run its action
    is called on each of the cycles.  (The actions are taken not to
    throw.) *)
Theorem short_period_runs_every_tick cycles s w i t :
  0 <= cycles ->
  all_calm (tasks s) ->
  nth_error (tasks s) i = Some t ->
  intervalMs t <= 50 ->
  nextRun t <= now w ->
  exists l,
    history (world_of (run cycles s w)) = history w ++ l
    /\ cycles <= Z.of_nat (times (Called (name (func t))) l).
Proof.
  intros Hc Hcalm Hi Hp Hdue.
  destruct (for_cycles_short (Z.to_nat cycles) i s w t Hcalm Hi Hp Hdue)
    as (l & Hl & Hn).
  exists l. split; [exact Hl|lia].
Qed.

Lemma play_instant (fs : list (Callable U)) w :
  Forall (fun f => instant (code f)) fs -> clock (play fs w) = clock w.
Proof.
  intros Hf. revert w. induction Hf as [|f fs Hi _ IH]; intros w; [reflexivity|].
  rewrite play_cons, IH. unfold enter. cbn [clock].
  destruct (Hi (clock w) (user w)) as [_ ->]. lia.
Qed.

Lemma for_cycles_exact n s w :
  Forall (fun t => instant (code (func t))) (tasks s) ->
  jitter w = [] ->
  returned (for_cycles n s w) = true
  /\ clock (world_of (for_cycles n s w)) = clock w + Z.of_nat n * milliseconds 50.
Proof.
  revert s w. induction n as [|n IH]; intros s w Hi Hj; [simpl; split; [easy|lia]|].
  assert (Hc : all_calm (tasks s)).
  { revert Hi. apply List.Forall_impl. intros t Ht u v. apply Ht. }
  cbn [for_cycles]. rewrite (tick_calm _ _ Hc).
  destruct (IH (fst (tick_spec s w)) (snd (tick_spec s w))) as [Hr Hk].
  - simpl. clear -Hi. induction Hi as [|t ts Ht _ IHt]; simpl; constructor; auto.
    unfold rebase. now destruct (due (now w) t).
  - simpl. now rewrite jitter_play, Hj.
  - split; [exact Hr|]. rewrite Hk. simpl. rewrite jitter_play, Hj.
    rewrite play_instant.
    + simpl. unfold milliseconds. lia.
    + unfold fired. clear -Hi.
      induction Hi as [|t ts Ht _ IHt]; simpl; [constructor|].
      destruct (due (now w) t); simpl; [constructor|]; auto.
Qed.

(** X14. With exact sleeps and actions that take no time, a run of [cycles]
    cycles returns exactly 50 ms times [cycles] after it started. *)
Theorem run_exact_duration cycles s w :
  0 <= cycles ->
  Forall (fun t => instant (code (func t))) (tasks s) ->
  jitter w = [] ->
  returned (run cycles s w) = true
  /\ clock (world_of (run cycles s w)) = clock w + cycles * milliseconds 50.
Proof.
  intros Hc Hi Hj. unfold run.
  destruct (for_cycles_exact (Z.to_nat cycles) s w Hi Hj) as [Hr Hk].
  split; [exact Hr|]. rewrite Hk. unfold milliseconds. lia.
Qed.

End SchedulerMore.
End SchedulerMore.

(** ** Controller: what it stores and what it schedules *)

Module ControllerMore.
Import Scheduler SchedulerSpec SchedulerFacts Controller ControllerFacts.
Section ControllerMore.
Context {U : Type}.
Implicit Types (w : World U) (k : Controller.t U) (x : Component U).

Lemma in_step_grows k l l' : in_step k l -> in_step k (l ++ l').
Proof.
  intros [Hf Hi]. split; [exact Hf|]. revert Hi. apply List.Forall_impl.
  intros x Hx. apply in_or_app. now left.
Qed.

Lemma step_in_step (op : Op U) k w h0 l :
  history w = h0 ++ l ->
  in_step k l ->
  exists l',
    history (snd (step (k, w) op)) = h0 ++ l ++ l'
    /\ in_step (fst (step (k, w) op)) (l ++ l').
Proof.
  intros Hh Hs. destruct op as [x ms|n|d]; simpl.
  - exists [Called (Init (cid x))]. split.
    + rewrite addComponent_history, Hh. now rewrite <- app_assoc.
    + unfold addComponent.
      destruct (invoke _ _ w) as [[] w1|[] w1]; simpl; [|now apply in_step_grows].
      destruct Hs as [Hf Hi]. split; cbn [components scheduler tasks].
      * rewrite !List.map_app, Hf. reflexivity.
      * apply Forall_app. split.
        -- revert Hi. apply List.Forall_impl. intros y Hy.
           apply in_or_app. now left.
        -- constructor; [|constructor]. apply in_or_app. right. now left.
  - unfold Controller.run, Scheduler.run.
    rewrite with_state_world, with_state_state.
    destruct (for_cycles_history (Z.to_nat n) (scheduler k) w) as (l' & Hl' & _).
    exists l'. split; [now rewrite Hl', Hh, <- app_assoc|].
    destruct Hs as [Hf Hi]. split; cbn [components scheduler].
    + rewrite <- Hf. apply for_cycles_keeps. reflexivity.
    + revert Hi. apply List.Forall_impl. intros y Hy. apply in_or_app. now left.
  - exists []. rewrite !app_nil_r. split; [exact Hh|exact Hs].
Qed.

Lemma exec_in_step (ops : list (Op U)) k w h0 l :
  history w = h0 ++ l ->
  in_step k l ->
  exists l',
    history (snd (exec ops (k, w))) = h0 ++ l ++ l'
    /\ in_step (fst (exec ops (k, w))) (l ++ l').
Proof.
  revert k w l. induction ops as [|op ops IH]; intros k w l Hh Hs.
  - exists []. rewrite !app_nil_r. simpl. split; [exact Hh|exact Hs].
  - destruct (step_in_step op k w h0 l Hh Hs) as (l1 & H1 & Hs1).
    simpl. destruct (step (k, w) op) as [k1 w1]. simpl in *.
    rewrite app_assoc in H1. rewrite <- app_assoc in H1.
    destruct (IH k1 w1 (l ++ l1) H1 Hs1) as (l2 & H2 & Hs2).
    exists (l1 ++ l2). rewrite <- !app_assoc in H2, Hs2. split; assumption.
Qed.

(** X15. Whatever a client does with a fresh Controller, its two fields stay
    in step: there are as many tasks as stored components, the k-th task
    calls update on the k-th stored component, and every stored component
    has had its init called.  A component whose init threw is in neither. *)
Theorem components_and_tasks_stay_in_step (ops : list (Op U)) w :
  exists l,
    history (snd (exec ops (Controller.empty, w))) = history w ++ l
    /\ map func (tasks (scheduler (fst (exec ops (Controller.empty, w)))))
       = map updater (components (fst (exec ops (Controller.empty, w))))
    /\ Forall (fun x => In (Called (Init (cid x))) l)
         (components (fst (exec ops (Controller.empty, w)))).
Proof.
  destruct (exec_in_step ops Controller.empty w (history w) []) as (l & Hl & Hs).
  - now rewrite app_nil_r.
  - split; [reflexivity|constructor].
  - exists l. simpl in *. split; [exact Hl|exact Hs].
Qed.




End ControllerMore.
End ControllerMore.

(** ** Logger, the example components and main's bus *)

Module ProgramFacts.


(** X18. TemperatureSensor::update draws one number from rand() and logs one
    INFO line carrying a value between 20 and 29, the value read returns
    for that number. *)
Theorem sensor_update_logs_value_from_20_to_29 rng e :
  0 <= rng (drawn e) ->
  exists v,
    20 <= v <= 29
    /\ fst (TemperatureSensor.read rng e) = v
    /\ TemperatureSensor.update rng e
       = {| out := out e
                   ++ [String.append "[INFO] TemperatureSensor value: " (to_string v)];
            drawn := S (drawn e) |}.
Proof.
  intros Hr. exists (20 + Z.rem (rng (drawn e)) 10).
  pose proof (Z.rem_bound_pos (rng (drawn e)) 10 Hr ltac:(lia)).
  split; [lia|]. split; reflexivity.
Qed.

(** X19. LED::update draws one number from rand() and logs one INFO line
    setting the LED to a level between 0 and 99. *)
Theorem led_update_sets_level_from_0_to_99 rng e :
  0 <= rng (drawn e) ->
  exists v,
    0 <= v <= 99
    /\ LED.update rng e
       = {| out := out e ++ [String.append "[INFO] LED set to " (to_string v)];
            drawn := S (drawn e) |}.
Proof.
  intros Hr. exists (Z.rem (rng (drawn e)) 100).
  pose proof (Z.rem_bound_pos (rng (drawn e)) 100 Hr ltac:(lia)).
  split; [lia|reflexivity].
Qed.

(** X20. On the bus of main, emitting an event of type "ALERT" returns after
    one call of the handler, which writes one WARN line ending in the
    payload; an event of any other type calls nothing and writes nothing.
    The registry is the same afterwards in both cases. *)
Theorem main_bus_logs_alerts_only cost evt (w : World Env) :
  EventBus.emit evt (Main.bus cost) w
  = Done (Main.bus cost)
      (if decide (type evt = "ALERT")
       then {| clock := clock w + Z.of_N (cost (clock w) (user w));
               jitter := jitter w;
               history := history w ++ [Handled 0 evt];
               user := {| out := out (user w)
                                 ++ [String.append "[WARN] ALERT event received: "
                                       (payload evt)];
                          drawn := drawn (user w) |} |}
       else w).
Proof.
  rewrite EventBusFacts.emit_delivers. unfold Main.bus.
  destruct (decide (type evt = "ALERT")) as [E|E].
  - rewrite E, EventBusFacts.registerHandler_same. reflexivity.
  - rewrite EventBusFacts.registerHandler_other by congruence. reflexivity.
Qed.

End ProgramFacts.

(** ** These properties at work on the small programs *)


Lemma registerHandler_commutes_witness :
  "ALERT" <> "STATUS"
  /\ EventBus.registerHandler "ALERT" (Demo.listener 1)
       (EventBus.registerHandler "STATUS" (Demo.listener 7) EventBus.empty)
     = EventBus.registerHandler "STATUS" (Demo.listener 7)
         (EventBus.registerHandler "ALERT" (Demo.listener 1) EventBus.empty).
Proof.
  split; [discriminate|].
  apply (EventBusMore.registerHandler_commutes "ALERT" "STATUS"
           (Demo.listener 1) (Demo.listener 7) EventBus.empty).
  discriminate.
Defined.

Lemma emit_delivers_to_all_in_order_witness :
  Forall (fun h => calm (EventBus.hcode h Demo.alert))
    (EventBus.subscribers
       (EventBus.registerHandler "ALERT" (Demo.listener 2)
          (EventBus.registerHandler "ALERT" (Demo.listener 1) EventBus.empty))
       (type Demo.alert))
  /\ history
       (world_of
          (EventBus.emit Demo.alert
             (EventBus.registerHandler "ALERT" (Demo.listener 2)
                (EventBus.registerHandler "ALERT" (Demo.listener 1) EventBus.empty))
             (Demo.boot 0)))
     = [Handled 1 Demo.alert; Handled 2 Demo.alert].
Proof.
  assert (H : Forall (fun h => calm (EventBus.hcode h Demo.alert))
                (EventBus.subscribers
                   (EventBus.registerHandler "ALERT" (Demo.listener 2)
                      (EventBus.registerHandler "ALERT" (Demo.listener 1)
                         EventBus.empty))
                   (type Demo.alert)))
    by (repeat constructor; exact quiet_calm).
  split; [exact H|].
  apply (EventBusMore.emit_delivers_to_all_in_order Demo.alert
           (EventBus.registerHandler "ALERT" (Demo.listener 2)
              (EventBus.registerHandler "ALERT" (Demo.listener 1) EventBus.empty))
           (Demo.boot 0) H).
Defined.


Lemma emit_ignores_other_types_witness :
  "STATUS" <> type Demo.alert
  /\ world_of (EventBus.emit Demo.alert
                 (EventBus.registerHandler "STATUS" (Cases.thrower 9)
                    Cases.mixed_bus) (Demo.boot 0))
     = world_of (EventBus.emit Demo.alert Cases.mixed_bus (Demo.boot 0)).
Proof.
  split; [discriminate|].
  apply (EventBusMore.emit_ignores_other_types Demo.alert "STATUS"
           (Cases.thrower 9) Cases.mixed_bus (Demo.boot 0)).
  discriminate.
Defined.

Lemma registered_handler_is_called_last_witness :
  Forall (fun h => calm (EventBus.hcode h Demo.alert))
    (EventBus.subscribers
       (EventBus.registerHandler "ALERT" (Demo.listener 1) EventBus.empty)
       (type Demo.alert))
  /\ history
       (world_of
          (EventBus.emit Demo.alert
             (EventBus.registerHandler (type Demo.alert) (Cases.thrower 2)
                (EventBus.registerHandler "ALERT" (Demo.listener 1) EventBus.empty))
             (Demo.boot 0)))
     = [Handled 1 Demo.alert; Handled 2 Demo.alert].
Proof.
  assert (H : Forall (fun h => calm (EventBus.hcode h Demo.alert))
                (EventBus.subscribers
                   (EventBus.registerHandler "ALERT" (Demo.listener 1) EventBus.empty)
                   (type Demo.alert)))
    by (repeat constructor; exact quiet_calm).
  split; [exact H|].
  apply (EventBusMore.registered_handler_is_called_last Demo.alert
           (Cases.thrower 2)
           (EventBus.registerHandler "ALERT" (Demo.listener 1) EventBus.empty)
           (Demo.boot 0) H).
Defined.

Lemma run_nonpositive_is_noop_witness :
  -3 <= 0
  /\ Scheduler.run (-3) Demo.late (Demo.boot 0) = Done Demo.late (Demo.boot 0).
Proof.
  split; [lia|].
  apply (SchedulerMore.run_nonpositive_is_noop (-3) Demo.late (Demo.boot 0)). lia.
Defined.

Lemma run_splits_witness :
  0 <= 4 /\ 0 <= 6
  /\ Scheduler.run (4 + 6) Demo.late (Demo.boot 0)
     = match Scheduler.run 4 Demo.late (Demo.boot 0) with
       | Done s1 w1 => Scheduler.run 6 s1 w1
       | Threw s1 w1 => Threw s1 w1
       end.
Proof.
  split; [lia|]. split; [lia|].
  apply (SchedulerMore.run_splits 4 6 Demo.late (Demo.boot 0)); lia.
Defined.

Lemma run_takes_at_least_50ms_a_cycle_witness :
  0 <= 10
  /\ milliseconds 500
     <= clock (world_of (Scheduler.run 10 Demo.late (Demo.boot 0))).
Proof.
  split; [lia|].
  apply (SchedulerMore.run_takes_at_least_50ms_a_cycle 10 Demo.late
           (Demo.boot 0)). lia.
Defined.

Lemma run_without_tasks_only_sleeps_witness :
  Scheduler.tasks (Scheduler.empty (U:=unit)) = []
  /\ returned (Scheduler.run 3 Scheduler.empty (Demo.boot 0)) = true.
Proof.
  split; [reflexivity|].
  apply (SchedulerMore.run_without_tasks_only_sleeps 3 Scheduler.empty
           (Demo.boot 0)). reflexivity.
Defined.


Lemma fast_calm : SchedulerSpec.all_calm (Scheduler.tasks Cases.fast).
Proof. repeat constructor; exact quiet_calm. Defined.

Lemma short_period_runs_every_tick_witness :
  0 <= 10
  /\ SchedulerSpec.all_calm (Scheduler.tasks Cases.fast)
  /\ nth_error (Scheduler.tasks Cases.fast) 0
     = Some (Scheduler.mkTask (Demo.job 1) 20 0)
  /\ 20 <= 50
  /\ 0 <= now (Demo.boot 0)
  /\ exists l,
       history (world_of (Scheduler.run 10 Cases.fast (Demo.boot 0)))
       = history (Demo.boot 0) ++ l
       /\ 10 <= Z.of_nat (times (Called (Fn 1)) l).
Proof.
  split; [lia|]. split; [exact fast_calm|]. split; [reflexivity|].
  split; [lia|]. split; [reflexivity|].
  apply (SchedulerMore.short_period_runs_every_tick 10 Cases.fast (Demo.boot 0)
           0%nat (Scheduler.mkTask (Demo.job 1) 20 0)
           ltac:(lia) fast_calm eq_refl ltac:(simpl; lia) ltac:(reflexivity)).
Defined.

(** The 20 ms task runs on each of ten ticks, the 700 ms task once. *)
Example fast_and_slow :
  times (Called (Fn 1))
    (history (world_of (Scheduler.run 10 Cases.fast (Demo.boot 0)))) = 10%nat
  /\ times (Called (Fn 2))
       (history (world_of (Scheduler.run 10 Cases.fast (Demo.boot 0)))) = 1%nat.
Proof. split; vm_compute; reflexivity. Qed.

Lemma fast_instant :
  Forall (fun t => instant (Scheduler.code (Scheduler.func t)))
    (Scheduler.tasks Cases.fast).
Proof. repeat constructor; exact quiet_instant. Defined.

Lemma run_exact_duration_witness :
  0 <= 10
  /\ Forall (fun t => instant (Scheduler.code (Scheduler.func t)))
       (Scheduler.tasks Cases.fast)
  /\ jitter (Demo.boot 0) = []
  /\ clock (world_of (Scheduler.run 10 Cases.fast (Demo.boot 0)))
     = milliseconds 500.
Proof.
  split; [lia|]. split; [exact fast_instant|]. split; [reflexivity|].
  apply (SchedulerMore.run_exact_duration 10 Cases.fast (Demo.boot 0)
           ltac:(lia) fast_instant eq_refl).
Defined.



(** What that client leaves in the history: the init that threw, then
    the sound component alone. *)
Example script_history :
  history (snd (Controller.exec Cases.script (Controller.empty, Demo.boot 0)))
  = [Called (Init 3); Called (Init 1); Called (Update 1)]
    ++ repeat (Slept (milliseconds 50)) 10.
Proof. reflexivity. Qed.


Lemma sensor_update_logs_value_from_20_to_29_witness :
  0 <= Cases.dice (drawn Cases.blank)
  /\ exists v,
       20 <= v <= 29
       /\ fst (TemperatureSensor.read Cases.dice Cases.blank) = v
       /\ TemperatureSensor.update Cases.dice Cases.blank
          = {| out := out Cases.blank
                      ++ [String.append "[INFO] TemperatureSensor value: "
                            (to_string v)];
               drawn := S (drawn Cases.blank) |}.
Proof.
  assert (H : 0 <= Cases.dice (drawn Cases.blank)) by (vm_compute; discriminate).
  split; [exact H|].
  apply (ProgramFacts.sensor_update_logs_value_from_20_to_29 Cases.dice
           Cases.blank H).
Defined.

(** With rand() returning 1234 the sensor reports 24 and the LED is set
    to 34. *)
Example sensor_and_led_lines :
  out (TemperatureSensor.update Cases.dice Cases.blank)
  = ["[INFO] TemperatureSensor value: 24"]
  /\ out (LED.update Cases.dice Cases.blank) = ["[INFO] LED set to 34"].
Proof. split; vm_compute; reflexivity. Qed.

Lemma led_update_sets_level_from_0_to_99_witness :
  0 <= Cases.dice (drawn Cases.blank)
  /\ exists v,
       0 <= v <= 99
       /\ LED.update Cases.dice Cases.blank
          = {| out := out Cases.blank
                      ++ [String.append "[INFO] LED set to " (to_string v)];
               drawn := S (drawn Cases.blank) |}.
Proof.
  assert (H : 0 <= Cases.dice (drawn Cases.blank)) by (vm_compute; discriminate).
  split; [exact H|].
  apply (ProgramFacts.led_update_sets_level_from_0_to_99 Cases.dice
           Cases.blank H).
Defined.
